(** * The Basic adapter of the Ember inspector (app/adapters/basic.js)

    A shallow embedding of the adapter base class and of the version
    comparison helpers that live in the same file, followed by the
    properties established about them.

    Layout:
    - [JS]: the fragment of the JavaScript runtime the file relies on
      (values, numbers, [String.prototype.split], the regular expression
      of [cleanupVersion], unary plus);
    - the three module-level functions [cleanupVersion], [compare] and
      [compareVersion];
    - the adapter object: its callback list, its hooks and the
      version-check listener, written in a small state-and-exception monad;
    - the theorems. *)

From Stdlib Require Import String Ascii List Bool NArith ZArith Lia.
Import ListNotations.

Set Warnings "-register-all".

Local Open Scope string_scope.
Local Open Scope list_scope.

(* ------------------------------------------------------------------ *)
(** ** The JavaScript fragment *)

Module JS.

(** Numbers that unary plus can produce on a version component: the
    component never holds ['.'] or ['-'] (see [components_clean] below),
    so the result is [NaN], a non-negative integer-valued double, or
    [+Infinity]. *)
Inductive number : Type :=
| NaN
| Fin (n : N)
| PosInf.

(** Values a message or a configuration entry can hold. Strings are
    sequences of code units below 256. *)
Inductive value : Type :=
| Undefined
| Null
| Boolean (b : bool)
| Number (n : number)
| Str (s : string)
| Object (props : list (string * value)).

(** What a call can throw. *)
Inductive thrown : Type :=
| TypeError
| Raised (tag : string).

(** [===] on numbers: [NaN] is equal to nothing. *)
Definition strict_eq (x y : number) : bool :=
  match x, y with
  | Fin a, Fin b => N.eqb a b
  | PosInf, PosInf => true
  | _, _ => false
  end.

(** [<] on numbers: any comparison with [NaN] is false. *)
Definition lt (x y : number) : bool :=
  match x, y with
  | Fin a, Fin b => N.ltb a b
  | Fin _, PosInf => true
  | _, _ => false
  end.

(** ToBoolean. *)
Definition truthy (v : value) : bool :=
  match v with
  | Undefined | Null => false
  | Boolean b => b
  | Number NaN => false
  | Number (Fin n) => negb (N.eqb n 0)
  | Number PosInf => true
  | Str s => negb (String.eqb s "")
  | Object _ => true
  end.

(** Own-property lookup in an object literal. *)
Fixpoint lookup (key : string) (props : list (string * value)) : value :=
  match props with
  | [] => Undefined
  | (k, v) :: rest => if String.eqb k key then v else lookup key rest
  end.

(** [v.key] for the two keys a message is destructured on. Reading a
    property of [undefined] or [null] throws; primitives have neither a
    [name] nor a [version] property. *)
Definition get (v : value) (key : string) : value + thrown :=
  match v with
  | Undefined | Null => inr TypeError
  | Object props => inl (lookup key props)
  | _ => inl Undefined
  end.

(** [v === "literal"]. *)
Definition is_string (v : value) (literal : string) : bool :=
  match v with
  | Str s => String.eqb s literal
  | _ => false
  end.

(** [arr[i]]: out of range reads give [undefined]. *)
Definition index (arr : list value) (i : nat) : value :=
  nth i arr Undefined.

(** [arr[arr.length - 1]]. *)
Definition last_element (arr : list value) : value :=
  match arr with
  | [] => Undefined
  | _ => index arr (length arr - 1)
  end.

(** *** Characters *)

Definition code (c : ascii) : N := N_of_ascii c.

Definition is_line_terminator (c : ascii) : bool :=
  N.eqb (code c) 10 || N.eqb (code c) 13.

Definition is_white_space (c : ascii) : bool :=
  N.eqb (code c) 9 || N.eqb (code c) 11 || N.eqb (code c) 12
  || N.eqb (code c) 32 || N.eqb (code c) 160.

Definition is_str_white_space (c : ascii) : bool :=
  is_white_space c || is_line_terminator c.

(** *** [s.split(sep)] for a one-character separator *)
Fixpoint split (sep : ascii) (s : string) : list string :=
  match s with
  | EmptyString => [""]
  | String c rest =>
      if Ascii.eqb c sep then "" :: split sep rest
      else match split sep rest with
           | head :: tail => String c head :: tail
           | [] => [String c ""]
           end
  end.

(** *** [s.replace(/-.*/g, '')]

    A match starts at every ['-'] and runs up to, not including, the
    next line terminator ([.] matches anything else); every match is
    deleted. [inside] tells whether the scan is within a match. *)
Fixpoint delete_dash_runs (inside : bool) (s : string) : string :=
  match s with
  | EmptyString => ""
  | String c rest =>
      if inside then
        if is_line_terminator c then String c (delete_dash_runs false rest)
        else delete_dash_runs true rest
      else
        if Ascii.eqb c "-" then delete_dash_runs true rest
        else String c (delete_dash_runs false rest)
  end.

(** *** Rounding a non-negative integer to the nearest double
    (ties to even, overflow to [+Infinity]). *)
Definition round_to_double (n : N) : number :=
  if N.ltb n (2 ^ 53) then Fin n
  else
    let e := (N.log2 n - 52)%N in
    let q := N.shiftr n e in
    let r := (n mod 2 ^ e)%N in
    let half := (2 ^ (e - 1))%N in
    let q' := if N.ltb r half then q
              else if N.ltb half r then (q + 1)%N
              else if N.even q then q else (q + 1)%N in
    let v := (q' * 2 ^ e)%N in
    if N.leb (2 ^ 1024) v then PosInf else Fin v.

(** *** ToNumber on strings (StringToNumber) *)

Fixpoint trim_left (s : string) : string :=
  match s with
  | EmptyString => ""
  | String c rest => if is_str_white_space c then trim_left rest else s
  end.

Fixpoint trim_right (s : string) : string :=
  match s with
  | EmptyString => ""
  | String c rest =>
      let t := trim_right rest in
      if is_str_white_space c && String.eqb t "" then "" else String c t
  end.

Definition digit_value (base : N) (c : ascii) : option N :=
  let n := code c in
  let d := if N.leb 48 n && N.leb n 57 then Some (n - 48)%N
           else if N.leb 97 n && N.leb n 102 then Some (n - 87)%N
           else if N.leb 65 n && N.leb n 70 then Some (n - 55)%N
           else None in
  match d with
  | Some v => if N.ltb v base then Some v else None
  | None => None
  end.

Fixpoint digits_from (base acc : N) (s : string) : option N :=
  match s with
  | EmptyString => Some acc
  | String c rest =>
      match digit_value base c with
      | Some d => digits_from base (acc * base + d) rest
      | None => None
      end
  end.

(** One or more digits of the base. *)
Definition parse_digits (base : N) (s : string) : option N :=
  match s with
  | EmptyString => None
  | _ => digits_from base 0 s
  end.

(** Splits a decimal literal at its exponent indicator, if any. *)
Fixpoint break_at_exponent (s : string) : string * option string :=
  match s with
  | EmptyString => ("", None)
  | String c rest =>
      if Ascii.eqb c "e" || Ascii.eqb c "E" then ("", Some rest)
      else let (m, e) := break_at_exponent rest in (String c m, e)
  end.

Definition drop_plus (s : string) : string :=
  match s with
  | String "+" rest => rest
  | _ => s
  end.

(** StrUnsignedDecimalLiteral without a fraction. *)
Definition unsigned_decimal (s : string) : option number :=
  if String.eqb s "Infinity" then Some PosInf
  else
    match break_at_exponent s with
    | (m, None) => option_map round_to_double (parse_digits 10 m)
    | (m, Some e) =>
        match parse_digits 10 m, parse_digits 10 (drop_plus e) with
        | Some mv, Some ev => Some (round_to_double (mv * 10 ^ ev))
        | _, _ => None
        end
    end.

(** Binary, octal and hexadecimal integer literals. *)
Definition non_decimal (s : string) : option number :=
  match s with
  | String "0" (String p rest) =>
      if Ascii.eqb p "x" || Ascii.eqb p "X"
      then option_map round_to_double (parse_digits 16 rest)
      else if Ascii.eqb p "o" || Ascii.eqb p "O"
      then option_map round_to_double (parse_digits 8 rest)
      else if Ascii.eqb p "b" || Ascii.eqb p "B"
      then option_map round_to_double (parse_digits 2 rest)
      else None
  | _ => None
  end.

(** [+s] for a string [s] free of ['.'] and ['-']: surrounding white
    space is dropped, the empty string is [0], a literal that does not
    parse is [NaN]. A string holding ['.'] or ['-'] is outside the
    domain modelled here and is mapped to [NaN]; [compareVersion] never
    produces one. *)
Definition string_to_number (s : string) : number :=
  let t := trim_right (trim_left s) in
  if String.eqb t "" then Fin 0
  else
    match non_decimal t with
    | Some n => n
    | None =>
        match unsigned_decimal (drop_plus t) with
        | Some n => n
        | None => NaN
        end
    end.

(** [+arr[i]]: a missing element is [undefined], whose number is [NaN]. *)
Definition unary_plus (element : option string) : number :=
  match element with
  | Some s => string_to_number s
  | None => NaN
  end.

End JS.

Import JS.

(* ------------------------------------------------------------------ *)
(** ** The version comparator *)

(** [cleanupVersion(version)]: remove -alpha, -beta, etc. *)
Definition cleanupVersion (version : string) : string :=
  delete_dash_runs false version.

(** [compare(val, number)]: the result is [-1], [0] or [1]; when none of
    the three tests holds the function falls off its end and the call
    yields no value ([None], JavaScript's [undefined]). *)
Definition compare (val number : JS.number) : option Z :=
  if strict_eq val number then Some 0%Z
  else if lt val number then Some (-1)%Z
  else if lt number val then Some 1%Z
  else None.

(** The loop [for (let i = 0; i < 3; i++)] of [compareVersion], with
    [remaining] iterations left to run from index [i]. *)
Fixpoint compareVersion_loop (version1 version2 : list string)
    (i remaining : nat) : option Z :=
  match remaining with
  | O => Some 0%Z
  | S k =>
      let compared := compare (unary_plus (nth_error version1 i))
                              (unary_plus (nth_error version2 i)) in
      match compared with
      | Some 0%Z => compareVersion_loop version1 version2 (S i) k
      | _ => compared
      end
  end.

(** [compareVersion(version1, version2)] on two strings. *)
Definition compareVersion (version1 version2 : string) : option Z :=
  let version1 := split "." (cleanupVersion version1) in
  let version2 := split "." (cleanupVersion version2) in
  compareVersion_loop version1 version2 0 3.

Definition LESS : option Z := Some (-1)%Z.
Definition EQUAL : option Z := Some 0%Z.
Definition GREATER : option Z := Some 1%Z.

(** [r === -1] on a result of [compareVersion]. *)
Definition is_less (r : option Z) : bool :=
  match r with
  | Some (-1)%Z => true
  | _ => false
  end.

(** [compareVersion(version1, version2)] as the listener calls it, on
    whatever values the message and the configuration hold:
    [cleanupVersion] calls [version.replace], which throws a [TypeError]
    on anything that is not a string. *)
Definition compareVersion_values (version1 version2 : value)
    : option Z + thrown :=
  match version1, version2 with
  | Str v1, Str v2 => inl (compareVersion v1 v2)
  | _, _ => inr TypeError
  end.

(* ------------------------------------------------------------------ *)
(** ** The adapter *)

(** [config.emberVersionsSupported] and
    [config.previousEmberVersionsSupported], imported from
    [ember-inspector/config/environment]. *)
Record Config : Type := {
  emberVersionsSupported : list value;
  previousEmberVersionsSupported : list value
}.

(** A registered callback: the arrow function that [_checkVersion]
    registers, or a function handed to [onMessageReceived] from outside.
    An outside function is known by what a call of it on a message does:
    return or throw; it does not reach back into the adapter. *)
Inductive callback : Type :=
| VersionListener
| External (id : nat) (body : value -> unit + thrown).

(** What an observer of the adapter sees: the calls of the two hooks
    [sendMessage] and [onVersionMismatch] (both empty in the base class,
    overridden per environment) and the calls of the callbacks. *)
Inductive event : Type :=
| Sent (message : value)
| Mismatch (neededVersion : value)
| Called (cb : callback) (message : value).

Record adapter : Type := {
  _messageCallbacks : list callback;
  trace : list event
}.

(** A method body: it runs on the adapter, returns or throws, and leaves
    the adapter as it was at that point. *)
Definition M (A : Type) : Type := adapter -> (A + thrown) * adapter.

Definition ret {A : Type} (a : A) : M A := fun this => (inl a, this).

Definition throw {A : Type} (e : thrown) : M A := fun this => (inr e, this).

Definition bind {A B : Type} (m : M A) (k : A -> M B) : M B :=
  fun this =>
    match m this with
    | (inl a, this') => k a this'
    | (inr e, this') => (inr e, this')
    end.

Definition lift {A : Type} (r : A + thrown) : M A := fun this => (r, this).

Definition emit (e : event) : M unit :=
  fun this =>
    (inl tt, {| _messageCallbacks := _messageCallbacks this;
                trace := trace this ++ [e] |}).

Declare Scope method_scope.
Delimit Scope method_scope with method.
Notation "x <- m ;; k" := (bind m (fun x => k))
  (at level 61, m at next level, right associativity) : method_scope.
Notation "m ;; k" := (bind m (fun _ => k))
  (at level 61, right associativity) : method_scope.
Local Open Scope method_scope.

(** The adapter before [init] has run: [_messageCallbacks] is computed
    as [[]] on first access. *)
Definition fresh : adapter := {| _messageCallbacks := []; trace := [] |}.

(** [{ type: 'check-version', from: 'devtools' }]. *)
Definition check_version_message : value :=
  Object [("type", Str "check-version"); ("from", Str "devtools")].

(** The hook [onVersionMismatch(neededVersion)]. *)
Definition onVersionMismatch (neededVersion : value) : M unit :=
  emit (Mismatch neededVersion).

(** The hook [sendMessage(message)]. *)
Definition sendMessage (message : value) : M unit :=
  emit (Sent message).

(** [onMessageReceived(callback)]: [pushObject] on the callback list. *)
Definition onMessageReceived (cb : callback) : M unit :=
  fun this =>
    (inl tt, {| _messageCallbacks := _messageCallbacks this ++ [cb];
                trace := trace this |}).

Section Adapter.

Variable config : Config.

(** The [if] / [else if] / [else] chain of the listener: the needed
    version, or [None] on the branch that returns without calling the
    hook. Nothing here touches the adapter. *)
Definition neededVersion_of (version : value) : option value + thrown :=
  let previousVersions := previousEmberVersionsSupported config in
  let fromVersion := index (emberVersionsSupported config) 0 in
  let tillVersion := index (emberVersionsSupported config) 1 in
  match compareVersion_values version fromVersion with
  | inr e => inr e
  | inl below =>
      if is_less below then inl (Some (last_element previousVersions))
      else if truthy tillVersion then
        match compareVersion_values version tillVersion with
        | inr e => inr e
        | inl above =>
            if negb (is_less above) then inl (Some tillVersion)
            else inl None
        end
      else inl None
  end.

(** The arrow function registered by [_checkVersion]. *)
Definition version_listener (message : value) : M unit :=
  name <- lift (get message "name") ;;
  version <- lift (get message "version") ;;
  if is_string name "version-mismatch" then
    needed <- lift (neededVersion_of version) ;;
    match needed with
    | Some neededVersion => onVersionMismatch neededVersion
    | None => ret tt
    end
  else ret tt.

(** [callback(message)]. *)
Definition call (cb : callback) (message : value) : M unit :=
  emit (Called cb message) ;;
  match cb with
  | VersionListener => version_listener message
  | External _ body => lift (body message)
  end.

(** [Array.prototype.forEach]: the elements in index order; a throw
    leaves the loop. *)
Fixpoint forEach (callbacks : list callback) (f : callback -> M unit)
    : M unit :=
  match callbacks with
  | [] => ret tt
  | cb :: rest => f cb ;; forEach rest f
  end.

(** [_messageReceived(message)]. *)
Definition _messageReceived (message : value) : M unit :=
  fun this =>
    forEach (_messageCallbacks this) (fun cb => call cb message) this.

(** [_checkVersion()]. *)
Definition _checkVersion : M unit :=
  onMessageReceived VersionListener ;;
  sendMessage check_version_message.

(** [init()]: [_super] has nothing to do on the base object. *)
Definition init : M unit := _checkVersion.

(** [Basic.create()]. *)
Definition create : adapter := snd (init fresh).

(** Registering a list of outside callbacks, one call of
    [onMessageReceived] each, in the order of the list. *)
Fixpoint register_all (cbs : list callback) : M unit :=
  match cbs with
  | [] => ret tt
  | cb :: rest => onMessageReceived cb ;; register_all rest
  end.

End Adapter.

(* ------------------------------------------------------------------ *)
(** ** Vocabulary of the statements *)

(** *** Well-formed version strings *)

Definition is_digit (c : ascii) : bool :=
  N.leb 48 (code c) && N.leb (code c) 57.

Fixpoint all_digits (s : string) : bool :=
  match s with
  | EmptyString => true
  | String c rest => is_digit c && all_digits rest
  end.

(** A non-negative integer in decimal: one or more digits. *)
Definition is_decimal (s : string) : bool :=
  negb (String.eqb s "") && all_digits s.

(** [major.minor.patch]: exactly three decimal components. *)
Definition is_triple (v : string) : bool :=
  match split "." v with
  | [a; b; c] => is_decimal a && is_decimal b && is_decimal c
  | _ => false
  end.

Fixpoint single_line (s : string) : bool :=
  match s with
  | EmptyString => true
  | String c rest => negb (is_line_terminator c) && single_line rest
  end.

(** The text in front of the first ['-']. *)
Fixpoint before_dash (s : string) : string :=
  match s with
  | EmptyString => ""
  | String c rest => if Ascii.eqb c "-" then "" else String c (before_dash rest)
  end.

(** The text behind the first ['-'], if there is one. *)
Fixpoint after_dash (s : string) : option string :=
  match s with
  | EmptyString => None
  | String c rest => if Ascii.eqb c "-" then Some rest else after_dash rest
  end.

(** [major.minor.patch], optionally followed by ['-'] and a pre-release
    tag; a tag is a piece of one line. *)
Definition well_formed (v : string) : bool :=
  is_triple (before_dash v)
  && match after_dash v with
     | Some tag => single_line tag
     | None => true
     end.

(** The integer a string of decimal digits denotes. *)
Fixpoint decimal_from (acc : N) (s : string) : N :=
  match s with
  | EmptyString => acc
  | String c rest => decimal_from (acc * 10 + (code c - 48)) rest
  end.

Definition decimal (s : string) : N := decimal_from 0 s.

(** The three integers of a [major.minor.patch] string. *)
Definition triple (v : string) : N * N * N :=
  match split "." v with
  | [a; b; c] => (decimal a, decimal b, decimal c)
  | _ => (0%N, 0%N, 0%N)
  end.

(** Every component is an integer a double holds exactly. *)
Definition safe (t : N * N * N) : Prop :=
  let '(major, minor, patch) := t in
  (major < 2 ^ 53 /\ minor < 2 ^ 53 /\ patch < 2 ^ 53)%N.

Definition sign (x y : N) : Z :=
  match N.compare x y with
  | Lt => (-1)%Z
  | Eq => 0%Z
  | Gt => 1%Z
  end.

(** Major first, then minor, then patch, as integers: the sign of the
    first component that differs, [0] when none does. *)
Definition by_components (a b : N * N * N) : Z :=
  let '(a1, a2, a3) := a in
  let '(b1, b2, b3) := b in
  if negb (N.eqb a1 b1) then sign a1 b1
  else if negb (N.eqb a2 b2) then sign a2 b2
  else sign a3 b3.

(** The numbers [compareVersion] compares: unary plus on the first three
    elements of the split, cleaned-up string. *)
Definition components (v : string) : list number :=
  let parts := split "." (cleanupVersion v) in
  [unary_plus (nth_error parts 0); unary_plus (nth_error parts 1);
   unary_plus (nth_error parts 2)].

(** A number that is not [NaN] and, when finite, lies below [2^1024]. *)
Definition ordinary (x : number) : Prop :=
  match x with
  | NaN => False
  | Fin n => (n < 2 ^ 1024)%N
  | PosInf => True
  end.

(** The place of a number in the order [<] puts on ordinary numbers:
    [+Infinity] comes after every finite double. *)
Definition rank (x : number) : N :=
  match x with
  | NaN => 0%N
  | Fin n => n
  | PosInf => (2 ^ 1024)%N
  end.

Definition ranks (v : string) : N * N * N :=
  match components v with
  | [x; y; z] => (rank x, rank y, rank z)
  | _ => (0%N, 0%N, 0%N)
  end.

Fixpoint free_of (c : ascii) (s : string) : bool :=
  match s with
  | EmptyString => true
  | String d rest => negb (Ascii.eqb d c) && free_of c rest
  end.

(** *** Reading a trace *)

Fixpoint called (t : list event) : list callback :=
  match t with
  | [] => []
  | Called cb _ :: rest => cb :: called rest
  | _ :: rest => called rest
  end.

Fixpoint mismatches (t : list event) : list value :=
  match t with
  | [] => []
  | Mismatch v :: rest => v :: mismatches rest
  | _ :: rest => mismatches rest
  end.


(** A call of the callback on the message returns. *)
Definition returns (config : Config) (cb : callback) (message : value)
    : Prop :=
  forall this, fst (call config cb message this) = inl tt.

(** An outside callback that returns on every message, and one that
    throws on every message. *)
Definition quiet (id : nat) : callback := External id (fun _ => inl tt).

Definition failing (id : nat) : callback :=
  External id (fun _ => inr (Raised "boom")).

Definition LF : string := String (ascii_of_nat 10) "".

(** The configuration of the specification's examples. *)
Definition example_config : Config :=
  {| emberVersionsSupported := [Str "2.0.0"; Str "3.0.0"];
     previousEmberVersionsSupported := [Str "1.8.0"; Str "1.9.0"] |}.

(** A configuration without an upper bound, written with the empty
    string. *)
Definition open_ended_config : Config :=
  {| emberVersionsSupported := [Str "2.0.0"; Str ""];
     previousEmberVersionsSupported := [Str "1.8.0"; Str "1.9.0"] |}.

Definition mismatch_message (version : value) : value :=
  Object [("name", Str "version-mismatch"); ("version", version)].

(** *** The version check, in the words of its description *)

(** The upper bound as the configuration gives it: absent, or a string. *)
Definition bound_of (v : value) : option string :=
  match v with
  | Str t => Some t
  | _ => None
  end.

(** The needed version as described: below [fromVersion], the last of
    the previous versions; else, with [tillVersion] defined and the
    version not below it, [tillVersion]; else none. *)
Definition described_action (fromVersion : string)
    (tillVersion : option string) (previousVersions : list value)
    (version : string) : option value :=
  if is_less (compareVersion version fromVersion)
  then Some (last_element previousVersions)
  else match tillVersion with
       | Some till =>
           if negb (is_less (compareVersion version till))
           then Some (Str till) else None
       | None => None
       end.

(** The same, with the upper bound counted only when it is a non-empty
    string. *)
Definition truthy_bound_action (fromVersion : string)
    (tillVersion : option string) (previousVersions : list value)
    (version : string) : option value :=
  if is_less (compareVersion version fromVersion)
  then Some (last_element previousVersions)
  else match tillVersion with
       | Some till =>
           if negb (String.eqb till "")
              && negb (is_less (compareVersion version till))
           then Some (Str till) else None
       | None => None
       end.

Definition hook_calls (needed : option value) : list event :=
  match needed with
  | Some neededVersion => [Mismatch neededVersion]
  | None => []
  end.

(** The message's [name] is ["version-mismatch"]. *)
Definition names_mismatch (message : value) : bool :=
  match get message "name" with
  | inl name => is_string name "version-mismatch"
  | inr _ => false
  end.

(** A run that ends with [result], leaves the callback list alone and
    adds [events] to the trace. *)
Definition runs_with (run : (unit + thrown) * adapter) (this : adapter)
    (result : unit + thrown) (events : list event) : Prop :=
  fst run = result
  /\ _messageCallbacks (snd run) = _messageCallbacks this
  /\ trace (snd run) = trace this ++ events.

(** *** Components, one at a time *)

(** [+version[i]] after [cleanupVersion] and [split]. *)
Definition component (v : string) (i : nat) : number :=
  unary_plus (nth_error (split "." (cleanupVersion v)) i).

(** What the loop of [compareVersion] returns, given the results of its
    three calls of [compare]: the first that is not [0]. *)
Definition first_decisive (c1 c2 c3 : option Z) : option Z :=
  match c1 with
  | Some 0%Z =>
      match c2 with
      | Some 0%Z =>
          match c3 with
          | Some 0%Z => Some 0%Z
          | _ => c3
          end
      | _ => c2
      end
  | _ => c1
  end.

(** The two versions hold the same number at position [i]. *)
Definition agree (a b : string) (i : nat) : Prop :=
  component a i = component b i /\ component a i <> NaN.

(** One of the two versions holds no number at position [i]. *)
Definition undecided (a b : string) (i : nat) : Prop :=
  component a i = NaN \/ component b i = NaN.

(* ------------------------------------------------------------------ *)
(** ** Checks on concrete inputs *)

Example compareVersion_numeric : compareVersion "2.10.0" "2.9.0" = GREATER.
Proof. vm_compute. reflexivity. Qed.

Example compareVersion_prerelease :
  compareVersion "2.5.0-beta.1" "2.5.0" = EQUAL.
Proof. vm_compute. reflexivity. Qed.

Example compareVersion_short : compareVersion "2.5" "2.5.0" = None.
Proof. vm_compute. reflexivity. Qed.

Example compareVersion_empty : compareVersion "4.0.0" "" = GREATER.
Proof. vm_compute. reflexivity. Qed.

Example string_to_number_samples :
  string_to_number "" = Fin 0
  /\ string_to_number " 7 " = Fin 7
  /\ string_to_number "0x1F" = Fin 31
  /\ string_to_number "1e3" = Fin 1000
  /\ string_to_number "1e400" = PosInf
  /\ string_to_number "12a" = NaN
  /\ string_to_number ("0" ++ LF ++ "b") = NaN.
Proof. vm_compute. repeat split; reflexivity. Qed.

Example round_to_double_samples :
  round_to_double 9007199254740993 = Fin 9007199254740992
  /\ round_to_double 9007199254740995 = Fin 9007199254740996.
Proof. vm_compute. split; reflexivity. Qed.

Example too_old :
  mismatches (trace (snd (version_listener example_config
                            (mismatch_message (Str "1.5.0")) fresh)))
  = [Str "1.9.0"].
Proof. vm_compute. reflexivity. Qed.

Example too_new :
  mismatches (trace (snd (version_listener example_config
                            (mismatch_message (Str "3.0.0")) fresh)))
  = [Str "3.0.0"].
Proof. vm_compute. reflexivity. Qed.

Example in_range :
  mismatches (trace (snd (version_listener example_config
                            (mismatch_message (Str "2.5.0")) fresh)))
  = [].
Proof. vm_compute. reflexivity. Qed.

(* ------------------------------------------------------------------ *)
(** ** Unary plus on a decimal component *)

Lemma digit_facts (c : ascii) :
  is_digit c = true ->
  is_str_white_space c = false
  /\ Ascii.eqb c "e" = false /\ Ascii.eqb c "E" = false
  /\ Ascii.eqb c "+" = false /\ Ascii.eqb c "-" = false
  /\ Ascii.eqb c "." = false /\ Ascii.eqb c "I" = false
  /\ Ascii.eqb c "x" = false /\ Ascii.eqb c "X" = false
  /\ Ascii.eqb c "o" = false /\ Ascii.eqb c "O" = false
  /\ Ascii.eqb c "b" = false /\ Ascii.eqb c "B" = false
  /\ digit_value 10 c = Some (code c - 48)%N.
Proof.
  destruct c as [[] [] [] [] [] [] [] []]; intro H; vm_compute in H;
    try discriminate H; vm_compute; repeat split; reflexivity.
Qed.

Ltac digit_of H :=
  let F := fresh "F" in
  pose proof (digit_facts _ H) as F;
  destruct F as (Fws & Fe & FE & Fplus & Fdash & Fdot & FI & Fx & FX & Fo
                 & FO & Fb & FB & Fval).

Lemma all_digits_cons (c : ascii) (s : string) :
  all_digits (String c s) = true -> is_digit c = true /\ all_digits s = true.
Proof. simpl. intro H. apply andb_true_iff in H. exact H. Qed.

Lemma trim_left_digits (s : string) :
  all_digits s = true -> trim_left s = s.
Proof.
  destruct s as [|c s]; [reflexivity|].
  intro H. apply all_digits_cons in H. destruct H as [Hc _].
  digit_of Hc. simpl. rewrite Fws. reflexivity.
Qed.

Lemma trim_right_digits (s : string) :
  all_digits s = true -> trim_right s = s.
Proof.
  induction s as [|c s IH]; [reflexivity|].
  intro H. apply all_digits_cons in H. destruct H as [Hc Hs].
  digit_of Hc. simpl. rewrite Fws, (IH Hs). reflexivity.
Qed.

Lemma non_decimal_digits (s : string) :
  all_digits s = true -> non_decimal s = None.
Proof.
  destruct s as [|c [|p s]]; intro H.
  - reflexivity.
  - destruct c as [[] [] [] [] [] [] [] []]; reflexivity.
  - apply all_digits_cons in H. destruct H as [_ H].
    apply all_digits_cons in H. destruct H as [Hp _].
    digit_of Hp.
    destruct c as [[] [] [] [] [] [] [] []]; try reflexivity.
    cbn [non_decimal]. rewrite Fx, FX, Fo, FO, Fb, FB. reflexivity.
Qed.

Lemma drop_plus_digits (s : string) :
  all_digits s = true -> drop_plus s = s.
Proof.
  destruct s as [|c s]; [reflexivity|].
  intro H. apply all_digits_cons in H. destruct H as [Hc _].
  destruct c as [[] [] [] [] [] [] [] []]; try reflexivity.
  vm_compute in Hc. discriminate Hc.
Qed.

Lemma not_Infinity_digits (s : string) :
  all_digits s = true -> String.eqb s "Infinity" = false.
Proof.
  destruct s as [|c s]; [reflexivity|].
  intro H. apply all_digits_cons in H. destruct H as [Hc _].
  digit_of Hc. cbn [String.eqb]. rewrite FI. reflexivity.
Qed.

Lemma break_at_exponent_digits (s : string) :
  all_digits s = true -> break_at_exponent s = (s, None).
Proof.
  induction s as [|c s IH]; [reflexivity|].
  intro H. apply all_digits_cons in H. destruct H as [Hc Hs].
  digit_of Hc. cbn [break_at_exponent]. rewrite Fe, FE, (IH Hs). reflexivity.
Qed.

Lemma digits_from_digits (s : string) (acc : N) :
  all_digits s = true -> digits_from 10 acc s = Some (decimal_from acc s).
Proof.
  revert acc. induction s as [|c s IH]; intros acc H; [reflexivity|].
  apply all_digits_cons in H. destruct H as [Hc Hs].
  digit_of Hc. cbn [digits_from decimal_from]. rewrite Fval.
  apply IH. exact Hs.
Qed.

Lemma is_decimal_inv (s : string) :
  is_decimal s = true -> s <> "" /\ all_digits s = true.
Proof.
  unfold is_decimal. intro H. apply andb_true_iff in H. destruct H as [Hn Hd].
  split; [|exact Hd]. intro E. subst s. discriminate Hn.
Qed.

(** On a string of decimal digits unary plus is the double nearest to
    the integer the digits denote. *)
Lemma string_to_number_decimal (s : string) :
  is_decimal s = true -> string_to_number s = round_to_double (decimal s).
Proof.
  intro H. apply is_decimal_inv in H. destruct H as [Hne Hd].
  unfold string_to_number.
  rewrite (trim_left_digits s Hd), (trim_right_digits s Hd).
  destruct s as [|c s]; [contradiction|].
  cbn [String.eqb].
  rewrite (non_decimal_digits _ Hd), (drop_plus_digits _ Hd).
  unfold unsigned_decimal.
  rewrite (not_Infinity_digits _ Hd), (break_at_exponent_digits _ Hd).
  unfold parse_digits. rewrite (digits_from_digits _ 0%N Hd). reflexivity.
Qed.

Lemma round_to_double_ordinary (n : N) : ordinary (round_to_double n).
Proof.
  unfold round_to_double.
  destruct (N.ltb_spec n (2 ^ 53)) as [Hlt|Hge].
  - unfold ordinary. eapply N.lt_trans; [exact Hlt|].
    apply N.pow_lt_mono_r; lia.
  - cbv zeta.
    match goal with |- context [N.leb ?a ?b] => destruct (N.leb_spec a b) end.
    + exact I.
    + unfold ordinary. assumption.
Qed.

Lemma round_to_double_exact (n : N) :
  (n < 2 ^ 53)%N -> round_to_double n = Fin n.
Proof.
  intro H. unfold round_to_double.
  destruct (N.ltb_spec n (2 ^ 53)) as [_|Hge]; [reflexivity|lia].
Qed.

(* ------------------------------------------------------------------ *)
(** ** The regular expression and the split *)

Lemma append_empty_r (s : string) : (s ++ "")%string = s.
Proof. induction s as [|c s IH]; simpl; [reflexivity|rewrite IH; reflexivity]. Qed.

(** Inside a match, a piece of one line is consumed to its end. *)
Lemma delete_inside_single_line (s : string) :
  single_line s = true -> delete_dash_runs true s = "".
Proof.
  induction s as [|c s IH]; [reflexivity|].
  simpl. intro H. apply andb_true_iff in H. destruct H as [Hc Hs].
  apply negb_true_iff in Hc. rewrite Hc. apply IH. exact Hs.
Qed.

Lemma delete_outside (v : string) :
  delete_dash_runs false v
  = (before_dash v ++ match after_dash v with
                      | Some tag => delete_dash_runs true tag
                      | None => ""
                      end)%string.
Proof.
  induction v as [|c v IH]; [reflexivity|].
  simpl. destruct (Ascii.eqb c "-"); simpl; [reflexivity|].
  rewrite IH. reflexivity.
Qed.

Lemma cleanupVersion_well_formed (v : string) :
  well_formed v = true -> cleanupVersion v = before_dash v.
Proof.
  unfold well_formed, cleanupVersion. intro H.
  apply andb_true_iff in H. destruct H as [_ Htag].
  rewrite delete_outside.
  destruct (after_dash v) as [tag|].
  - rewrite (delete_inside_single_line tag Htag). apply append_empty_r.
  - apply append_empty_r.
Qed.

(** Appending ['-'] and a piece of one line does not change what the
    regular expression leaves. *)
Lemma delete_dash_runs_suffix (v s : string) (inside : bool) :
  single_line s = true ->
  delete_dash_runs inside (v ++ "-" ++ s)%string = delete_dash_runs inside v.
Proof.
  intro Hs. revert inside. induction v as [|c v IH]; intro inside.
  - destruct inside; simpl; apply delete_inside_single_line; exact Hs.
  - destruct inside; cbn [append delete_dash_runs].
    + destruct (is_line_terminator c); rewrite IH; reflexivity.
    + destruct (Ascii.eqb c "-"); rewrite IH; reflexivity.
Qed.

Lemma is_triple_inv (v : string) :
  is_triple v = true ->
  exists a b c, split "." v = [a; b; c]
    /\ is_decimal a = true /\ is_decimal b = true /\ is_decimal c = true.
Proof.
  unfold is_triple.
  destruct (split "." v) as [|a [|b [|c [|d l]]]]; try discriminate.
  intro H. apply andb_true_iff in H. destruct H as [H Hc].
  apply andb_true_iff in H. destruct H as [Ha Hb].
  exists a, b, c. auto.
Qed.

Lemma well_formed_parts (v : string) :
  well_formed v = true ->
  exists a b c, split "." (cleanupVersion v) = [a; b; c]
    /\ is_decimal a = true /\ is_decimal b = true /\ is_decimal c = true.
Proof.
  intro H. rewrite (cleanupVersion_well_formed v H).
  apply is_triple_inv. unfold well_formed in H.
  apply andb_true_iff in H. destruct H as [H _]. exact H.
Qed.

Lemma split_nonempty (sep : ascii) (s : string) : split sep s <> [].
Proof.
  destruct s as [|c s]; simpl; [discriminate|].
  destruct (Ascii.eqb c sep); [discriminate|].
  destruct (split sep s); discriminate.
Qed.

(** A character occurs in no part of the split if it does not occur in
    the string, and conversely for any character but the separator. *)
Lemma free_of_split (c sep : ascii) (s : string) :
  free_of c s = true -> Forall (fun p => free_of c p = true) (split sep s).
Proof.
  induction s as [|d s IH]; simpl; intro H.
  - constructor; [reflexivity|constructor].
  - apply andb_true_iff in H. destruct H as [Hd Hs].
    specialize (IH Hs).
    destruct (Ascii.eqb d sep).
    + constructor; [reflexivity|exact IH].
    + destruct (split sep s) as [|h t] eqn:Es;
        [exfalso; exact (split_nonempty sep s Es)|].
      inversion IH; subst.
      constructor; [simpl; rewrite Hd; simpl; assumption|assumption].
Qed.

Lemma split_free_of (c sep : ascii) (s : string) :
  Ascii.eqb sep c = false ->
  Forall (fun p => free_of c p = true) (split sep s) -> free_of c s = true.
Proof.
  intro Hsep. induction s as [|d s IH]; simpl; intro H; [reflexivity|].
  destruct (Ascii.eqb d sep) eqn:E.
  - apply Ascii.eqb_eq in E. subst d. rewrite Hsep. simpl.
    apply IH. inversion H; assumption.
  - destruct (split sep s) as [|h t] eqn:Es.
    + exfalso. exact (split_nonempty sep s Es).
    + inversion H as [|x l Hh Ht]; subst. simpl in Hh.
      apply andb_true_iff in Hh. destruct Hh as [Hd Hh].
      rewrite Hd. simpl. apply IH. constructor; assumption.
Qed.

Lemma split_free_of_sep (sep : ascii) (s : string) :
  Forall (fun p => free_of sep p = true) (split sep s).
Proof.
  induction s as [|d s IH]; simpl.
  - constructor; [reflexivity|constructor].
  - destruct (Ascii.eqb d sep) eqn:E.
    + constructor; [reflexivity|exact IH].
    + destruct (split sep s) as [|h t] eqn:Es;
        [exfalso; exact (split_nonempty sep s Es)|].
      inversion IH; subst.
      constructor; [simpl; rewrite E; simpl; assumption|assumption].
Qed.

Lemma delete_dash_runs_free (inside : bool) (s : string) :
  free_of "-" (delete_dash_runs inside s) = true.
Proof.
  revert inside. induction s as [|c s IH]; intro inside; [reflexivity|].
  destruct inside; simpl.
  - destruct (is_line_terminator c) eqn:E; [|apply IH].
    simpl. rewrite IH.
    destruct (Ascii.eqb c "-") eqn:D; [|reflexivity].
    apply Ascii.eqb_eq in D. subst c. discriminate E.
  - destruct (Ascii.eqb c "-") eqn:D; [apply IH|].
    simpl. rewrite D, IH. reflexivity.
Qed.

(** What [compareVersion] hands to unary plus holds neither ['.'] nor
    ['-']. *)
Lemma components_clean (v : string) :
  Forall (fun p => free_of "." p = true /\ free_of "-" p = true)
         (split "." (cleanupVersion v)).
Proof.
  apply Forall_forall. intros p Hp. split.
  - exact (proj1 (Forall_forall _ _) (split_free_of_sep "." _) p Hp).
  - refine (proj1 (Forall_forall _ _) (free_of_split "-" "." _ _) p Hp).
    apply delete_dash_runs_free.
Qed.

Lemma all_digits_free_of_dash (s : string) :
  all_digits s = true -> free_of "-" s = true.
Proof.
  induction s as [|c s IH]; [reflexivity|].
  intro H. apply all_digits_cons in H. destruct H as [Hc Hs].
  digit_of Hc. simpl. rewrite Fdash. apply IH. exact Hs.
Qed.

Lemma before_dash_free (s : string) :
  free_of "-" s = true -> before_dash s = s /\ after_dash s = None.
Proof.
  induction s as [|c s IH]; [split; reflexivity|].
  simpl. intro H. apply andb_true_iff in H. destruct H as [Hc Hs].
  apply negb_true_iff in Hc. rewrite Hc.
  destruct (IH Hs) as [E1 E2]. rewrite E1, E2. split; reflexivity.
Qed.

(** A [major.minor.patch] string has no suffix to strip. *)
Lemma is_triple_well_formed (v : string) :
  is_triple v = true -> well_formed v = true /\ cleanupVersion v = v.
Proof.
  intro H. destruct (is_triple_inv v H) as (a & b & c & Es & Ha & Hb & Hc).
  assert (Hfree : free_of "-" v = true).
  { apply (split_free_of "-" "."); [reflexivity|]. rewrite Es.
    repeat constructor; apply all_digits_free_of_dash;
      eapply is_decimal_inv; eassumption. }
  destruct (before_dash_free v Hfree) as [E1 E2].
  assert (Hwf : well_formed v = true).
  { unfold well_formed. rewrite E1, E2, H. reflexivity. }
  split; [exact Hwf|].
  rewrite (cleanupVersion_well_formed v Hwf). exact E1.
Qed.

(* ------------------------------------------------------------------ *)
(** ** [compare] and the loop of [compareVersion] *)

Ltac order_cases :=
  repeat match goal with
         | |- context [N.eqb ?x ?y] => destruct (N.eqb_spec x y)
         | |- context [N.ltb ?x ?y] => destruct (N.ltb_spec x y)
         | |- context [N.compare ?x ?y] => destruct (N.compare_spec x y)
         | H : context [N.eqb ?x ?y] |- _ => destruct (N.eqb_spec x y)
         | H : context [N.compare ?x ?y] |- _ => destruct (N.compare_spec x y)
         end.

Lemma sign_range (x y : N) :
  sign x y = (-1)%Z \/ sign x y = 0%Z \/ sign x y = 1%Z.
Proof. unfold sign. destruct (N.compare x y); auto. Qed.

Lemma compare_ordinary (x y : number) :
  ordinary x -> ordinary y -> compare x y = Some (sign (rank x) (rank y)).
Proof.
  destruct x as [|a|], y as [|b|]; unfold ordinary; intros Hx Hy;
    try contradiction; unfold compare, strict_eq, lt, sign, rank.
  - order_cases; try reflexivity; exfalso; lia.
  - apply N.compare_lt_iff in Hx. rewrite Hx. reflexivity.
  - apply N.compare_gt_iff in Hy. rewrite Hy. reflexivity.
  - rewrite N.compare_refl. reflexivity.
Qed.

(** The loop, unrolled over its three iterations. *)
Lemma compareVersion_unrolled (a b : string) :
  compareVersion a b
  = match components a, components b with
    | [x1; x2; x3], [y1; y2; y3] =>
        let c1 := compare x1 y1 in
        let c2 := compare x2 y2 in
        let c3 := compare x3 y3 in
        match c1 with
        | Some 0%Z =>
            match c2 with
            | Some 0%Z =>
                match c3 with
                | Some 0%Z => Some 0%Z
                | _ => c3
                end
            | _ => c2
            end
        | _ => c1
        end
    | _, _ => None
    end.
Proof. reflexivity. Qed.

Lemma components_well_formed (v : string) :
  well_formed v = true ->
  exists a b c,
    split "." (cleanupVersion v) = [a; b; c]
    /\ is_decimal a = true /\ is_decimal b = true /\ is_decimal c = true
    /\ components v = [round_to_double (decimal a);
                       round_to_double (decimal b);
                       round_to_double (decimal c)].
Proof.
  intro H. destruct (well_formed_parts v H) as (a & b & c & Es & Ha & Hb & Hc).
  exists a, b, c. repeat (split; [assumption|]).
  unfold components. rewrite Es. cbn [nth_error unary_plus].
  rewrite !string_to_number_decimal by assumption. reflexivity.
Qed.

Lemma components_ordinary (v : string) :
  well_formed v = true -> Forall ordinary (components v).
Proof.
  intro H. destruct (components_well_formed v H) as (a & b & c & _ & _ & _ & _ & E).
  rewrite E. repeat constructor; apply round_to_double_ordinary.
Qed.

Lemma sign_zero (x y : N) : sign x y = 0%Z <-> x = y.
Proof. unfold sign. order_cases; split; intro; try discriminate; try lia; reflexivity. Qed.

(** On well-formed versions [compareVersion] is the component-wise order
    of the ranks. *)
Lemma compareVersion_ranks (a b : string) :
  well_formed a = true -> well_formed b = true ->
  compareVersion a b = Some (by_components (ranks a) (ranks b)).
Proof.
  intros Ha Hb. rewrite compareVersion_unrolled. unfold ranks.
  pose proof (components_ordinary a Ha) as Oa.
  pose proof (components_ordinary b Hb) as Ob.
  destruct (components_well_formed a Ha) as (a1 & a2 & a3 & _ & _ & _ & _ & Ea).
  destruct (components_well_formed b Hb) as (b1 & b2 & b3 & _ & _ & _ & _ & Eb).
  rewrite Ea, Eb in *.
  inversion Oa as [|? ? O1 Oa']; subst. inversion Oa' as [|? ? O2 Oa'']; subst.
  inversion Oa'' as [|? ? O3 _]; subst.
  inversion Ob as [|? ? P1 Ob']; subst. inversion Ob' as [|? ? P2 Ob'']; subst.
  inversion Ob'' as [|? ? P3 _]; subst.
  cbv zeta.
  rewrite (compare_ordinary _ _ O1 P1), (compare_ordinary _ _ O2 P2),
    (compare_ordinary _ _ O3 P3).
  unfold by_components.
  set (r1 := rank (round_to_double (decimal a1))).
  set (r2 := rank (round_to_double (decimal a2))).
  set (r3 := rank (round_to_double (decimal a3))).
  set (s1 := rank (round_to_double (decimal b1))).
  set (s2 := rank (round_to_double (decimal b2))).
  set (s3 := rank (round_to_double (decimal b3))).
  clearbody r1 r2 r3 s1 s2 s3.
  destruct (N.eqb_spec r1 s1) as [E1|N1]; cbn [negb].
  - rewrite (proj2 (sign_zero r1 s1) E1).
    destruct (N.eqb_spec r2 s2) as [E2|N2]; cbn [negb].
    + rewrite (proj2 (sign_zero r2 s2) E2).
      destruct (sign_range r3 s3) as [E|[E|E]]; rewrite E; reflexivity.
    + destruct (sign_range r2 s2) as [E|[E|E]]; rewrite E; try reflexivity.
      apply sign_zero in E. contradiction.
  - destruct (sign_range r1 s1) as [E|[E|E]]; rewrite E; try reflexivity.
    apply sign_zero in E. contradiction.
Qed.

(** *** The component-wise order on triples of integers *)

Lemma by_components_range (a b : N * N * N) :
  by_components a b = (-1)%Z \/ by_components a b = 0%Z
  \/ by_components a b = 1%Z.
Proof.
  destruct a as [[a1 a2] a3], b as [[b1 b2] b3]. unfold by_components.
  destruct (negb (N.eqb a1 b1)); [apply sign_range|].
  destruct (negb (N.eqb a2 b2)); apply sign_range.
Qed.

Lemma by_components_opp (a b : N * N * N) :
  by_components b a = (- by_components a b)%Z.
Proof.
  destruct a as [[a1 a2] a3], b as [[b1 b2] b3].
  unfold by_components, sign.
  order_cases; cbn [negb Z.opp]; order_cases; try reflexivity; exfalso; lia.
Qed.

Lemma by_components_less (a b : N * N * N) :
  by_components a b = (-1)%Z <->
  let '(a1, a2, a3) := a in
  let '(b1, b2, b3) := b in
  (a1 < b1 \/ (a1 = b1 /\ (a2 < b2 \/ (a2 = b2 /\ a3 < b3))))%N.
Proof.
  destruct a as [[a1 a2] a3], b as [[b1 b2] b3].
  unfold by_components, sign.
  order_cases; cbn [negb]; order_cases;
    split; intro Hyp; try discriminate Hyp; try reflexivity; try lia.
Qed.

Lemma by_components_equal (a b : N * N * N) :
  by_components a b = 0%Z <-> a = b.
Proof.
  destruct a as [[a1 a2] a3], b as [[b1 b2] b3].
  unfold by_components, sign.
  order_cases; cbn [negb]; order_cases;
    split; intro Hyp; try discriminate Hyp; try reflexivity;
    try (inversion Hyp; lia); try (subst; reflexivity).
Qed.

Lemma by_components_trans (a b c : N * N * N) (r : Z) :
  by_components a b = r -> by_components b c = r -> by_components a c = r.
Proof.
  intros Hab Hbc.
  destruct (by_components_range a b) as [E|[E|E]].
  - rewrite E in Hab. subst r.
    apply by_components_less in E. apply by_components_less in Hbc.
    apply by_components_less.
    destruct a as [[a1 a2] a3], b as [[b1 b2] b3], c as [[c1 c2] c3]. lia.
  - rewrite E in Hab. subst r.
    apply by_components_equal in E. subst b. exact Hbc.
  - rewrite E in Hab. subst r.
    rewrite by_components_opp in E. rewrite by_components_opp in Hbc.
    rewrite by_components_opp.
    assert (E' : by_components b a = (-1)%Z) by lia.
    assert (Hbc' : by_components c b = (-1)%Z) by lia.
    assert (G : by_components c a = (-1)%Z).
    { apply by_components_less in E'. apply by_components_less in Hbc'.
      apply by_components_less.
      destruct a as [[a1 a2] a3], b as [[b1 b2] b3], c as [[c1 c2] c3]. lia. }
    rewrite G. reflexivity.
Qed.

(* ------------------------------------------------------------------ *)
(** ** The version comparator: results *)

Lemma ranks_triple (v : string) :
  is_triple v = true -> safe (triple v) -> ranks v = triple v.
Proof.
  intros H Hsafe. destruct (is_triple_well_formed v H) as [Hwf Hclean].
  destruct (components_well_formed v Hwf) as (a & b & c & Es & _ & _ & _ & E).
  rewrite Hclean in Es. unfold ranks, triple in *. rewrite E, Es in *.
  cbv beta iota in Hsafe. destruct Hsafe as (Ha & Hb & Hc).
  rewrite !round_to_double_exact by assumption. reflexivity.
Qed.

(** C5. On valid [major.minor.patch] strings [compareVersion] always
    yields a number, swapping the arguments negates it, and the ordering
    it induces is transitive: two LESS (two EQUAL, two GREATER) results
    chain, and an EQUAL result lets either side stand for the other. *)
Theorem compareVersion_antisymmetric_transitive (a b c : string) :
  is_triple a = true -> is_triple b = true -> is_triple c = true ->
  (exists r, compareVersion a b = Some r
             /\ compareVersion b a = Some (- r)%Z)
  /\ (forall r, compareVersion a b = Some r -> compareVersion b c = Some r ->
                compareVersion a c = Some r)
  /\ (compareVersion a b = EQUAL -> compareVersion a c = compareVersion b c)
  /\ (compareVersion b c = EQUAL -> compareVersion a c = compareVersion a b).
Proof.
  intros Ha Hb Hc.
  apply is_triple_well_formed in Ha. destruct Ha as [Ha _].
  apply is_triple_well_formed in Hb. destruct Hb as [Hb _].
  apply is_triple_well_formed in Hc. destruct Hc as [Hc _].
  rewrite (compareVersion_ranks a b Ha Hb), (compareVersion_ranks b a Hb Ha),
    (compareVersion_ranks b c Hb Hc), (compareVersion_ranks a c Ha Hc).
  generalize (ranks a) (ranks b) (ranks c). clear. intros ra rb rc.
  repeat split.
  - exists (by_components ra rb).
    split; [reflexivity|]. rewrite by_components_opp. reflexivity.
  - intros r Hab Hbc. f_equal.
    apply (by_components_trans _ rb); congruence.
  - intro E. assert (E0 : by_components ra rb = 0%Z) by (unfold EQUAL in E; congruence).
    apply by_components_equal in E0. rewrite E0. reflexivity.
  - intro E. assert (E0 : by_components rb rc = 0%Z) by (unfold EQUAL in E; congruence).
    apply by_components_equal in E0. rewrite E0. reflexivity.
Qed.

Lemma compareVersion_antisymmetric_transitive_witness :
  compareVersion "1.2.3" "1.10.0" = LESS
  /\ compareVersion "1.10.0" "2.0.0" = LESS
  /\ compareVersion "1.2.3" "2.0.0" = LESS.
Proof.
  pose proof (compareVersion_antisymmetric_transitive "1.2.3" "1.10.0" "2.0.0"
                eq_refl eq_refl eq_refl) as (_ & T & _ & _).
  split; [reflexivity|]. split; [reflexivity|].
  apply T; reflexivity.
Defined.

(** C6, amended. A suffix that begins with ['-'] and holds no line
    terminator is ignored by the comparison, on either side:
    [compareVersion (v + "-" + s) w] is [compareVersion v w]. In
    particular "2.5.0-beta.1" equals "2.5.0". *)
Theorem compareVersion_ignores_suffix (v s w : string) :
  single_line s = true ->
  cleanupVersion (v ++ "-" ++ s) = cleanupVersion v
  /\ compareVersion (v ++ "-" ++ s) w = compareVersion v w
  /\ compareVersion w (v ++ "-" ++ s) = compareVersion w v.
Proof.
  intro Hs. unfold compareVersion, cleanupVersion.
  rewrite (delete_dash_runs_suffix v s false Hs). repeat split.
Qed.

Lemma compareVersion_ignores_suffix_witness :
  compareVersion "2.5.0-beta.1" "2.5.0" = EQUAL.
Proof.
  pose proof (compareVersion_ignores_suffix "2.5.0" "beta.1" "2.5.0" eq_refl)
    as (_ & E & _).
  change ("2.5.0" ++ "-" ++ "beta.1")%string with "2.5.0-beta.1" in E.
  rewrite E. reflexivity.
Defined.

(** C6, as stated, fails: with a line feed in the suffix the regular
    expression stops at the line feed, the rest of the suffix stays in
    the third component, and the comparison with "2.5.0" yields no value
    instead of EQUAL. *)
Lemma compareVersion_suffix_with_line_feed :
  let v := "2.5.0" in
  let s := ("a" ++ LF ++ "b")%string in
  let w := "2.5.0" in
  cleanupVersion (v ++ "-" ++ s) = ("2.5.0" ++ LF ++ "b")%string
  /\ compareVersion (v ++ "-" ++ s) w = None
  /\ compareVersion v w = EQUAL.
Proof. vm_compute. repeat split; reflexivity. Qed.





(** C9. On well-formed version strings (three decimal components, then
    possibly ['-'] and a tag) [compareVersion] returns LESS, EQUAL or
    GREATER, and no call of [compare] on their components reaches the
    end of the function without a value. *)
Theorem compareVersion_total (a b : string) :
  well_formed a = true -> well_formed b = true ->
  (compareVersion a b = LESS \/ compareVersion a b = EQUAL
   \/ compareVersion a b = GREATER)
  /\ (forall x y, In x (components a) -> In y (components b) ->
                  compare x y <> None).
Proof.
  intros Ha Hb. split.
  - rewrite (compareVersion_ranks a b Ha Hb).
    destruct (by_components_range (ranks a) (ranks b)) as [E|[E|E]];
      rewrite E; auto.
  - intros x y Hx Hy.
    pose proof (components_ordinary a Ha) as Oa.
    pose proof (components_ordinary b Hb) as Ob.
    rewrite Forall_forall in Oa, Ob.
    rewrite (compare_ordinary x y (Oa x Hx) (Ob y Hy)). discriminate.
Qed.

Lemma compareVersion_total_witness :
  compareVersion "2.5.0-beta.1" "3.0.0" = LESS.
Proof.
  destruct (compareVersion_total "2.5.0-beta.1" "3.0.0" eq_refl eq_refl)
    as [[E|[E|E]] _]; [exact E|discriminate E|discriminate E].
Defined.

(* ------------------------------------------------------------------ *)
(** ** The adapter: running callbacks *)

Lemma called_app (t u : list event) : called (t ++ u) = called t ++ called u.
Proof.
  induction t as [|e t IH]; [reflexivity|].
  destruct e; simpl; rewrite IH; reflexivity.
Qed.

Lemma mismatches_app (t u : list event) :
  mismatches (t ++ u) = mismatches t ++ mismatches u.
Proof.
  induction t as [|e t IH]; [reflexivity|].
  destruct e; simpl; rewrite IH; reflexivity.
Qed.


Lemma runs_with_nothing (this : adapter) (result : unit + thrown) :
  runs_with (result, this) this result [].
Proof. unfold runs_with. simpl. rewrite app_nil_r. auto. Qed.

Lemma runs_with_emit (this : adapter) (e : event) :
  runs_with (emit e this) this (inl tt) [e].
Proof. unfold runs_with. simpl. auto. Qed.

(** Two runs in a row. *)
Lemma runs_with_bind (m : M unit) (k : unit -> M unit) (this : adapter)
    (events1 events2 : list event) (result : unit + thrown) :
  runs_with (m this) this (inl tt) events1 ->
  runs_with (k tt (snd (m this))) (snd (m this)) result events2 ->
  runs_with (bind m k this) this result (events1 ++ events2).
Proof.
  unfold runs_with, bind. intros (R1 & C1 & T1) (R2 & C2 & T2).
  destruct (m this) as [[[]|e] this1]; simpl in *; [|discriminate R1].
  rewrite R2, C2, C1, T2, T1, app_assoc. auto.
Qed.

(** A run that throws ends the sequence. *)
Lemma runs_with_bind_throw (m : M unit) (k : unit -> M unit) (this : adapter)
    (events : list event) (e : thrown) :
  runs_with (m this) this (inr e) events ->
  runs_with (bind m k this) this (inr e) events.
Proof.
  unfold runs_with, bind. intros (R1 & C1 & T1).
  destruct (m this) as [[[]|e'] this1]; simpl in *; [discriminate R1|].
  auto.
Qed.

(** The listener returns or throws, and adds at most one call of the
    mismatch hook to the trace. *)
Lemma version_listener_runs (config : Config) (message : value)
    (this : adapter) :
  exists result needed,
    runs_with (version_listener config message this) this result
              (hook_calls needed).
Proof.
  unfold version_listener, bind, lift.
  destruct (get message "name") as [name|e];
    [|exists (inr e), None; apply runs_with_nothing].
  destruct (get message "version") as [version|e];
    [|exists (inr e), None; apply runs_with_nothing].
  destruct (is_string name "version-mismatch");
    [|exists (inl tt), None; apply runs_with_nothing].
  destruct (neededVersion_of config version) as [[v|]|e].
  - exists (inl tt), (Some v). apply runs_with_emit.
  - exists (inl tt), None. apply runs_with_nothing.
  - exists (inr e), None. apply runs_with_nothing.
Qed.

Lemma called_hook_calls (needed : option value) :
  called (hook_calls needed) = [].
Proof. destruct needed; reflexivity. Qed.

(** One call of a callback: the call is recorded, the body runs. *)
Lemma call_runs (config : Config) (cb : callback) (message : value)
    (this : adapter) :
  exists result events,
    runs_with (call config cb message this) this result events
    /\ called events = [cb].
Proof.
  destruct cb as [|id body].
  - destruct (version_listener_runs config message
                (snd (emit (Called VersionListener message) this)))
      as (result & needed & R).
    exists result, ([Called VersionListener message] ++ hook_calls needed).
    split.
    + unfold call. destruct result as [[]|e].
      * apply runs_with_bind; [apply runs_with_emit|exact R].
      * unfold runs_with, bind in *. simpl in *.
        destruct (version_listener config message _) as [r this1].
        simpl in *. destruct R as (R1 & R2 & R3). subst r.
        rewrite R2, R3, <- app_assoc. auto.
    + rewrite called_app, called_hook_calls. reflexivity.
  - exists (body message), [Called (External id body) message].
    split; [|reflexivity].
    unfold call, bind, lift, runs_with. simpl. auto.
Qed.

Lemma runs_with_result (run : (unit + thrown) * adapter) (this : adapter)
    (r r' : unit + thrown) (events : list event) :
  runs_with run this r events -> fst run = r' -> runs_with run this r' events.
Proof. unfold runs_with. intros (R & C & T) E. rewrite <- E. auto. Qed.

(** The loop over callbacks that all return. *)
Lemma forEach_all_return (config : Config) (message : value)
    (cbs : list callback) :
  Forall (fun cb => returns config cb message) cbs ->
  forall this,
  exists events,
    runs_with (forEach cbs (fun cb => call config cb message) this) this
              (inl tt) events
    /\ called events = cbs.
Proof.
  induction 1 as [|cb rest Hcb Hrest IH]; intro this.
  - exists []. split; [apply runs_with_nothing|reflexivity].
  - destruct (call_runs config cb message this) as (r & ev1 & R1 & C1).
    apply (fun R => runs_with_result _ _ _ _ _ R (Hcb this)) in R1.
    destruct (IH (snd (call config cb message this))) as (ev2 & R2 & C2).
    exists (ev1 ++ ev2). split.
    + cbn [forEach]. apply runs_with_bind; assumption.
    + rewrite called_app, C1, C2. reflexivity.
Qed.

(** The loop up to the first callback that throws. *)
Lemma forEach_first_throw (config : Config) (message : value)
    (before : list callback) (cb : callback) (after : list callback)
    (e : thrown) :
  Forall (fun c => returns config c message) before ->
  (forall this, fst (call config cb message this) = inr e) ->
  forall this,
  exists events,
    runs_with (forEach (before ++ cb :: after)
                 (fun c => call config c message) this) this (inr e) events
    /\ called events = before ++ [cb].
Proof.
  intros Hbefore Hcb.
  induction Hbefore as [|c rest Hc Hrest IH]; intro this.
  - destruct (call_runs config cb message this) as (r & ev & R & C).
    apply (fun R => runs_with_result _ _ _ _ _ R (Hcb this)) in R.
    exists ev. split; [|exact C].
    cbn [app forEach]. apply runs_with_bind_throw. exact R.
  - destruct (call_runs config c message this) as (r & ev1 & R1 & C1).
    apply (fun R => runs_with_result _ _ _ _ _ R (Hc this)) in R1.
    destruct (IH (snd (call config c message this))) as (ev2 & R2 & C2).
    exists (ev1 ++ ev2). split.
    + cbn [app forEach]. apply runs_with_bind; assumption.
    + rewrite called_app, C1, C2. reflexivity.
Qed.

Lemma register_all_appends (cbs : list callback) (this : adapter) :
  register_all cbs this
  = (inl tt, {| _messageCallbacks := _messageCallbacks this ++ cbs;
                trace := trace this |}).
Proof.
  revert this. induction cbs as [|cb rest IH]; intro this.
  - simpl. unfold ret. rewrite app_nil_r. destruct this; reflexivity.
  - cbn [register_all]. unfold bind, onMessageReceived. rewrite IH. simpl.
    rewrite <- app_assoc. reflexivity.
Qed.

(** Registrations followed by a dispatch on which every callback
    returns. *)
Lemma dispatch_after_registrations (config : Config) (cbs : list callback)
    (message : value) (this : adapter) :
  Forall (fun cb => returns config cb message)
         (_messageCallbacks this ++ cbs) ->
  exists events,
    runs_with (_messageReceived config message (snd (register_all cbs this)))
              (snd (register_all cbs this)) (inl tt) events
    /\ called events = _messageCallbacks this ++ cbs.
Proof.
  intro Hall. rewrite register_all_appends. unfold _messageReceived.
  cbn [snd _messageCallbacks].
  apply forEach_all_return. exact Hall.
Qed.

(* ------------------------------------------------------------------ *)
(** ** The adapter: results *)

(** C1, as stated, fails: a callback that throws ends the dispatch. Here
    the listener of [init] and two outside callbacks are registered; the
    first outside callback throws, the exception leaves
    [_messageReceived], and the second outside callback is not invoked. *)
Lemma later_callback_skipped_after_throw :
  let this := snd (register_all [failing 1; quiet 2] create) in
  let run := _messageReceived example_config (Str "ping") this in
  _messageCallbacks this = [VersionListener; failing 1; quiet 2]
  /\ fst run = inr (Raised "boom")
  /\ called (trace (snd run)) = [VersionListener; failing 1]
  /\ ~ In (quiet 2) (called (trace (snd run))).
Proof.
  cbv zeta. repeat (split; [vm_compute; reflexivity|]).
  vm_compute. intros [H|[H|[]]]; discriminate H.
Qed.

(** C1, amended. During the dispatch of one message the callbacks are
    invoked in registration order up to and including the first one that
    throws: every callback in front of it is invoked, its exception
    leaves [_messageReceived], and no callback registered behind it is
    invoked. *)
Theorem dispatch_ends_at_first_throw (config : Config) (message : value)
    (before : list callback) (cb : callback) (after : list callback)
    (e : thrown) (this : adapter) :
  _messageCallbacks this = before ++ cb :: after ->
  Forall (fun c => returns config c message) before ->
  (forall st, fst (call config cb message st) = inr e) ->
  exists events,
    runs_with (_messageReceived config message this) this (inr e) events
    /\ called events = before ++ [cb].
Proof.
  intros Hlist Hbefore Hcb. unfold _messageReceived. rewrite Hlist.
  apply forEach_first_throw; assumption.
Qed.

Lemma dispatch_ends_at_first_throw_witness :
  exists events,
    runs_with (_messageReceived example_config (Str "ping")
                 (snd (register_all [quiet 0; failing 1; quiet 2] fresh)))
              (snd (register_all [quiet 0; failing 1; quiet 2] fresh))
              (inr (Raised "boom")) events
    /\ called events = [quiet 0] ++ [failing 1].
Proof.
  apply (dispatch_ends_at_first_throw example_config (Str "ping")
           [quiet 0] (failing 1) [quiet 2] (Raised "boom")).
  - reflexivity.
  - constructor; [intro st; reflexivity|constructor].
  - intro st. reflexivity.
Defined.

(** C2, as stated, fails: the upper bound counts only when it is truthy.
    With the empty string as upper bound, which is a defined value and
    below which "2.5.0" is not, the description asks for a call of the
    hook with the empty string; the listener makes no call. *)
Lemma empty_upper_bound_is_no_bound :
  let message := mismatch_message (Str "2.5.0") in
  index (emberVersionsSupported open_ended_config) 1 = Str ""
  /\ compareVersion "2.5.0" "2.0.0" = GREATER
  /\ compareVersion "2.5.0" "" = GREATER
  /\ described_action "2.0.0" (Some "")
       (previousEmberVersionsSupported open_ended_config) "2.5.0"
     = Some (Str "")
  /\ version_listener open_ended_config message fresh = (inl tt, fresh).
Proof. cbv zeta. repeat (split; [vm_compute; reflexivity|]). reflexivity. Qed.

Lemma neededVersion_of_strings (config : Config)
    (version fromVersion : string) :
  index (emberVersionsSupported config) 0 = Str fromVersion ->
  (index (emberVersionsSupported config) 1 = Undefined
   \/ exists till, index (emberVersionsSupported config) 1 = Str till) ->
  neededVersion_of config (Str version)
  = inl (truthy_bound_action fromVersion
           (bound_of (index (emberVersionsSupported config) 1))
           (previousEmberVersionsSupported config) version).
Proof.
  intros Hfrom Htill. unfold neededVersion_of, truthy_bound_action.
  rewrite Hfrom. cbn [compareVersion_values].
  destruct (is_less (compareVersion version fromVersion)); [reflexivity|].
  destruct Htill as [E|[till E]]; rewrite E; cbn [truthy bound_of];
    [reflexivity|].
  destruct (String.eqb till ""); cbn [negb andb]; [reflexivity|].
  cbn [compareVersion_values].
  destruct (is_less (compareVersion version till)); reflexivity.
Qed.

Lemma version_listener_on_mismatch (config : Config) (message : value)
    (version : string) (needed : option value) (this : adapter) :
  get message "name" = inl (Str "version-mismatch") ->
  get message "version" = inl (Str version) ->
  neededVersion_of config (Str version) = inl needed ->
  runs_with (version_listener config message this) this (inl tt)
            (hook_calls needed).
Proof.
  intros Hname Hversion Hneeded. unfold version_listener, bind, lift.
  rewrite Hname, Hversion. cbn [is_string String.eqb Ascii.eqb Bool.eqb].
  rewrite Hneeded. destruct needed as [v|].
  - apply runs_with_emit.
  - apply runs_with_nothing.
Qed.

(** C2, amended. On a message [{name: "version-mismatch", version}],
    with strings for the version and the bounds: when
    [compareVersion version fromVersion] is LESS the hook is called with
    the last of the previous versions; else, when [tillVersion] is a
    non-empty string and [compareVersion version tillVersion] is not
    LESS, the hook is called with [tillVersion]; otherwise the hook is
    not called. Nothing else happens. *)
Theorem version_check_classifies (config : Config) (message : value)
    (version fromVersion : string) (this : adapter) :
  get message "name" = inl (Str "version-mismatch") ->
  get message "version" = inl (Str version) ->
  index (emberVersionsSupported config) 0 = Str fromVersion ->
  (index (emberVersionsSupported config) 1 = Undefined
   \/ exists till, index (emberVersionsSupported config) 1 = Str till) ->
  runs_with (version_listener config message this) this (inl tt)
    (hook_calls
       (truthy_bound_action fromVersion
          (bound_of (index (emberVersionsSupported config) 1))
          (previousEmberVersionsSupported config) version)).
Proof.
  intros Hname Hversion Hfrom Htill.
  apply (version_listener_on_mismatch config message version);
    [assumption|assumption|].
  apply neededVersion_of_strings; assumption.
Qed.

Lemma version_check_classifies_witness :
  runs_with (version_listener example_config
               (mismatch_message (Str "3.0.0")) fresh)
            fresh (inl tt) [Mismatch (Str "3.0.0")].
Proof.
  apply (version_check_classifies example_config
           (mismatch_message (Str "3.0.0")) "3.0.0" "2.0.0" fresh).
  - reflexivity.
  - reflexivity.
  - reflexivity.
  - right. exists "3.0.0". reflexivity.
Defined.





(** C8, as stated, fails: the shape of the message decides whether the
    outside callbacks see it. On a version-mismatch message without a
    [version] the listener of [init], which runs first, throws a
    [TypeError] out of [cleanupVersion], and the outside callback
    registered behind it is not invoked. *)
Lemma mismatch_without_version_stops_dispatch :
  let message := Object [("name", Str "version-mismatch")] in
  let this := snd (register_all [quiet 1] create) in
  let run := _messageReceived example_config message this in
  _messageCallbacks this = [VersionListener; quiet 1]
  /\ fst run = inr TypeError
  /\ called (trace (snd run)) = [VersionListener]
  /\ ~ In (quiet 1) (called (trace (snd run))).
Proof.
  cbv zeta. repeat (split; [vm_compute; reflexivity|]).
  vm_compute. intros [H|[]]. discriminate H.
Qed.

Lemma version_listener_other_name (config : Config) (message : value)
    (this : adapter) :
  names_mismatch message = false ->
  version_listener config message this
  = (match get message "name" with
     | inl _ => inl tt
     | inr e => inr e
     end, this).
Proof.
  unfold names_mismatch, version_listener, bind, lift.
  destruct message; cbn [get]; intro H; try rewrite H; reflexivity.
Qed.

(** C8, amended. On an adapter made by [create] and a list of outside
    callbacks registered behind the listener: whenever the listener and
    the outside callbacks return on a message, the dispatch hands the
    message to the listener and then to every outside callback, in
    registration order. The listener returns on every message that is
    neither [undefined] nor [null] and whose [name] is not
    ["version-mismatch"], and on no message with another name, or none,
    does it call [onVersionMismatch]. *)
Theorem other_messages_pass_through (config : Config) (message : value)
    (outside : list callback) :
  (returns config VersionListener message ->
   Forall (fun cb => returns config cb message) outside ->
   exists events,
     runs_with (_messageReceived config message
                  (snd (register_all outside create)))
               (snd (register_all outside create)) (inl tt) events
     /\ called events = VersionListener :: outside)
  /\ (names_mismatch message = false ->
      message <> Undefined -> message <> Null ->
      returns config VersionListener message)
  /\ (names_mismatch message = false ->
      forall this,
        mismatches (trace (snd (version_listener config message this)))
        = mismatches (trace this)).
Proof.
  repeat split.
  - intros Hlistener Houtside.
    apply (dispatch_after_registrations config outside message create).
    constructor; assumption.
  - intros Hname Hu Hn this. unfold call, bind.
    cbn [emit]. rewrite (version_listener_other_name config message _ Hname).
    destruct message; cbn [get fst]; try reflexivity; contradiction.
  - intros Hname this.
    rewrite (version_listener_other_name config message this Hname).
    reflexivity.
Qed.

Lemma other_messages_pass_through_witness :
  exists events,
    runs_with (_messageReceived example_config
                 (Object [("name", Str "view:render")])
                 (snd (register_all [quiet 1; quiet 2] create)))
              (snd (register_all [quiet 1; quiet 2] create)) (inl tt) events
    /\ called events = [VersionListener; quiet 1; quiet 2].
Proof.
  destruct (other_messages_pass_through example_config
              (Object [("name", Str "view:render")]) [quiet 1; quiet 2])
    as (P & L & _).
  apply P.
  - apply L; [reflexivity|discriminate|discriminate].
  - repeat constructor.
Defined.

(** C10. When a version-mismatch message reports a version below
    [fromVersion] and the list of previous versions is empty, the
    listener still calls [onVersionMismatch], once, with [undefined]. *)
Theorem empty_previous_versions_give_undefined (config : Config)
    (message : value) (version fromVersion : string) (this : adapter) :
  previousEmberVersionsSupported config = [] ->
  get message "name" = inl (Str "version-mismatch") ->
  get message "version" = inl (Str version) ->
  index (emberVersionsSupported config) 0 = Str fromVersion ->
  compareVersion version fromVersion = LESS ->
  runs_with (version_listener config message this) this (inl tt)
            [Mismatch Undefined].
Proof.
  intros Hprev Hname Hversion Hfrom Hless.
  apply (version_listener_on_mismatch config message version (Some Undefined));
    [assumption|assumption|].
  unfold neededVersion_of. rewrite Hfrom. cbn [compareVersion_values].
  rewrite Hless, Hprev. reflexivity.
Qed.

Lemma empty_previous_versions_give_undefined_witness :
  runs_with
    (version_listener
       {| emberVersionsSupported := [Str "2.0.0"; Str "3.0.0"];
          previousEmberVersionsSupported := [] |}
       (mismatch_message (Str "1.5.0")) fresh)
    fresh (inl tt) [Mismatch Undefined].
Proof.
  apply (empty_previous_versions_give_undefined
           {| emberVersionsSupported := [Str "2.0.0"; Str "3.0.0"];
              previousEmberVersionsSupported := [] |}
           (mismatch_message (Str "1.5.0")) "1.5.0" "2.0.0" fresh);
    reflexivity.
Defined.

(* ------------------------------------------------------------------ *)
(** ** Further properties of the comparator *)

Lemma delete_dash_runs_dash_free (s : string) :
  free_of "-" s = true -> delete_dash_runs false s = s.
Proof.
  induction s as [|c s IH]; [reflexivity|].
  simpl. intro H. apply andb_true_iff in H. destruct H as [Hc Hs].
  apply negb_true_iff in Hc. rewrite Hc, (IH Hs). reflexivity.
Qed.

Lemma single_line_before_dash (v : string) :
  single_line v = true ->
  match after_dash v with
  | Some tag => single_line tag = true
  | None => True
  end.
Proof.
  induction v as [|c v IH]; [exact (fun _ => I)|].
  simpl. intro H. apply andb_true_iff in H. destruct H as [_ Hv].
  destruct (Ascii.eqb c "-"); [exact Hv|exact (IH Hv)].
Qed.

(** X1. [cleanupVersion] leaves no ['-'] behind, changes nothing in a string
    without ['-'], and applied twice does what it does applied once. *)
Theorem cleanupVersion_idempotent (v : string) :
  free_of "-" (cleanupVersion v) = true
  /\ (free_of "-" v = true -> cleanupVersion v = v)
  /\ cleanupVersion (cleanupVersion v) = cleanupVersion v.
Proof.
  unfold cleanupVersion. split; [apply delete_dash_runs_free|].
  split; [apply delete_dash_runs_dash_free|].
  apply delete_dash_runs_dash_free, delete_dash_runs_free.
Qed.

Lemma cleanupVersion_idempotent_witness :
  cleanupVersion "2.5.0" = "2.5.0".
Proof.
  exact (proj1 (proj2 (cleanupVersion_idempotent "2.5.0")) eq_refl).
Defined.

(** X2. On a string of one line [cleanupVersion] keeps exactly the text in
    front of the first ['-']. *)
Theorem cleanupVersion_single_line (v : string) :
  single_line v = true -> cleanupVersion v = before_dash v.
Proof.
  intro H. unfold cleanupVersion. rewrite delete_outside.
  pose proof (single_line_before_dash v H) as Htag.
  destruct (after_dash v) as [tag|].
  - rewrite (delete_inside_single_line tag Htag). apply append_empty_r.
  - apply append_empty_r.
Qed.

Lemma cleanupVersion_single_line_witness :
  cleanupVersion "3.0.0-alpha.2-canary" = "3.0.0".
Proof.
  rewrite (cleanupVersion_single_line "3.0.0-alpha.2-canary" eq_refl).
  reflexivity.
Defined.

Lemma compare_facts (x y : number) :
  (compare x y = None <-> x = NaN \/ y = NaN)
  /\ (compare x y = Some 0%Z <-> x = y /\ x <> NaN)
  /\ compare y x = option_map Z.opp (compare x y).
Proof.
  destruct x as [|a|], y as [|b|]; unfold compare, strict_eq, lt;
    cbn [option_map Z.opp].
  all: try (repeat split; intros; try tauto; try discriminate; try congruence;
            try (left; reflexivity); try (right; reflexivity);
            match goal with
            | H : _ \/ _ |- _ => destruct H; discriminate
            | H : _ /\ _ |- _ => destruct H; congruence
            end).
  order_cases; cbn [option_map Z.opp];
    repeat split; intros; try discriminate; try reflexivity;
    try (exfalso; lia); try congruence;
    match goal with
    | H : _ \/ _ |- _ => destruct H; discriminate
    | H : _ /\ _ |- _ => destruct H as [E _]; inversion E; lia
    | _ => idtac
    end.
Qed.

(** X3. [compare] yields no value exactly when an argument is [NaN]; it
    yields [0] exactly on two equal numbers; and with the arguments
    swapped it yields the opposite. *)
Theorem compare_no_value_iff_NaN (x y : number) :
  (compare x y = None <-> x = NaN \/ y = NaN)
  /\ (compare x y = Some 0%Z <-> x = y /\ x <> NaN)
  /\ compare y x = option_map Z.opp (compare x y).
Proof. exact (compare_facts x y). Qed.

Lemma compare_range (x y : number) :
  compare x y = None \/ compare x y = LESS \/ compare x y = EQUAL
  \/ compare x y = GREATER.
Proof.
  unfold compare, LESS, EQUAL, GREATER.
  destruct (strict_eq x y); [auto|].
  destruct (lt x y); [auto|]. destruct (lt y x); auto.
Qed.

Lemma compareVersion_first_decisive (a b : string) :
  compareVersion a b
  = first_decisive (compare (component a 0) (component b 0))
                   (compare (component a 1) (component b 1))
                   (compare (component a 2) (component b 2)).
Proof. reflexivity. Qed.

Ltac option_Z_cases c :=
  destruct c as [[|?|?]|].


Lemma first_decisive_zero (c1 c2 c3 : option Z) :
  first_decisive c1 c2 c3 = Some 0%Z <->
  c1 = Some 0%Z /\ c2 = Some 0%Z /\ c3 = Some 0%Z.
Proof.
  option_Z_cases c1; option_Z_cases c2; option_Z_cases c3;
    cbn [first_decisive]; intuition (try discriminate; try congruence).
Qed.

Lemma first_decisive_none (c1 c2 c3 : option Z) :
  first_decisive c1 c2 c3 = None <->
  c1 = None
  \/ (c1 = Some 0%Z /\ (c2 = None \/ (c2 = Some 0%Z /\ c3 = None))).
Proof.
  option_Z_cases c1; option_Z_cases c2; option_Z_cases c3;
    cbn [first_decisive]; intuition (try discriminate; try congruence).
Qed.

Lemma first_decisive_opp (c1 c2 c3 : option Z) :
  first_decisive (option_map Z.opp c1) (option_map Z.opp c2)
                 (option_map Z.opp c3)
  = option_map Z.opp (first_decisive c1 c2 c3).
Proof.
  option_Z_cases c1; option_Z_cases c2; option_Z_cases c3; reflexivity.
Qed.

Lemma first_decisive_range (c1 c2 c3 : option Z) (P : option Z -> Prop) :
  P c1 -> P c2 -> P c3 -> P (Some 0%Z) -> P (first_decisive c1 c2 c3).
Proof.
  intros H1 H2 H3 H0.
  option_Z_cases c1; option_Z_cases c2; option_Z_cases c3;
    cbn [first_decisive]; assumption.
Qed.

(** X4. On every pair of strings [compareVersion] yields LESS, EQUAL,
    GREATER or no value, and swapping the arguments negates the result
    (no value stays no value). *)
Theorem compareVersion_swap (a b : string) :
  (compareVersion a b = None \/ compareVersion a b = LESS
   \/ compareVersion a b = EQUAL \/ compareVersion a b = GREATER)
  /\ compareVersion b a = option_map Z.opp (compareVersion a b).
Proof.
  rewrite !compareVersion_first_decisive. split.
  - apply (first_decisive_range _ _ _
             (fun c => c = None \/ c = LESS \/ c = EQUAL \/ c = GREATER));
      try apply compare_range.
    right. right. left. reflexivity.
  - rewrite <- first_decisive_opp.
    rewrite <- !(fun x y => proj2 (proj2 (compare_facts x y))).
    reflexivity.
Qed.






Lemma compare_zero_agree (a b : string) (i : nat) :
  compare (component a i) (component b i) = Some 0%Z <-> agree a b i.
Proof. apply (compare_facts (component a i) (component b i)). Qed.

Lemma compare_none_undecided (a b : string) (i : nat) :
  compare (component a i) (component b i) = None <-> undecided a b i.
Proof. apply (compare_facts (component a i) (component b i)). Qed.

Lemma compareVersion_equal_agree (a b : string) :
  compareVersion a b = EQUAL <-> agree a b 0 /\ agree a b 1 /\ agree a b 2.
Proof.
  rewrite compareVersion_first_decisive. unfold EQUAL.
  rewrite first_decisive_zero, !compare_zero_agree. reflexivity.
Qed.

Lemma compareVersion_none_undecided (a b : string) :
  compareVersion a b = None <->
  undecided a b 0
  \/ (agree a b 0 /\ (undecided a b 1 \/ (agree a b 1 /\ undecided a b 2))).
Proof.
  rewrite compareVersion_first_decisive.
  rewrite first_decisive_none, !compare_zero_agree, !compare_none_undecided.
  reflexivity.
Qed.

(** X6. [compareVersion] yields EQUAL exactly when the two versions hold
    the same number at each of the three positions. *)
Theorem compareVersion_equal_iff (a b : string) :
  compareVersion a b = EQUAL <-> agree a b 0 /\ agree a b 1 /\ agree a b 2.
Proof. exact (compareVersion_equal_agree a b). Qed.

(** X7. [compareVersion] yields no value exactly when, at the first
    position where the two versions do not hold the same number, one of
    them holds no number at all. *)
Theorem compareVersion_no_value_iff (a b : string) :
  compareVersion a b = None <->
  undecided a b 0
  \/ (agree a b 0 /\ (undecided a b 1 \/ (agree a b 1 /\ undecided a b 2))).
Proof. exact (compareVersion_none_undecided a b). Qed.

(** X8. A version compared with itself is EQUAL when its first three
    components are numbers and yields no value otherwise; it is never
    LESS or GREATER. *)
Theorem compareVersion_self (v : string) :
  (compareVersion v v = EQUAL <->
   component v 0 <> NaN /\ component v 1 <> NaN /\ component v 2 <> NaN)
  /\ (compareVersion v v = None <->
      component v 0 = NaN \/ component v 1 = NaN \/ component v 2 = NaN)
  /\ compareVersion v v <> LESS /\ compareVersion v v <> GREATER.
Proof.
  assert (D : forall i, component v i = NaN \/ component v i <> NaN).
  { intro i. destruct (component v i); [left; reflexivity|right|right];
      discriminate. }
  assert (E : compareVersion v v = EQUAL <->
              component v 0 <> NaN /\ component v 1 <> NaN
              /\ component v 2 <> NaN).
  { rewrite compareVersion_equal_agree. unfold agree. tauto. }
  assert (N : compareVersion v v = None <->
              component v 0 = NaN \/ component v 1 = NaN
              \/ component v 2 = NaN).
  { rewrite compareVersion_none_undecided. unfold agree, undecided.
    pose proof (D 0) as D0. pose proof (D 1) as D1. tauto. }
  split; [exact E|]. split; [exact N|].
  destruct (D 0) as [D0|D0], (D 1) as [D1|D1], (D 2) as [D2|D2];
    try (assert (G : compareVersion v v = None) by (apply N; tauto);
         rewrite G; split; discriminate).
  assert (G : compareVersion v v = EQUAL) by (apply E; tauto).
  rewrite G. split; discriminate.
Qed.

Lemma component_missing (v : string) (i : nat) :
  length (split "." (cleanupVersion v)) <= i -> component v i = NaN.
Proof.
  intro H. unfold component.
  rewrite (proj2 (nth_error_None _ _) H). reflexivity.
Qed.

(** X9. A version with fewer than three dot-separated components is EQUAL to
    nothing, on either side, not even to itself. *)
Theorem compareVersion_short_never_equal (v w : string) :
  length (split "." (cleanupVersion v)) < 3 ->
  compareVersion v w <> EQUAL /\ compareVersion w v <> EQUAL.
Proof.
  intro H.
  assert (E : component v 2 = NaN) by (apply component_missing; lia).
  split; intro G; apply compareVersion_equal_agree in G;
    destruct G as (_ & _ & G2 & G3).
  - exact (G3 E).
  - rewrite G2 in G3. exact (G3 E).
Qed.

Lemma compareVersion_short_never_equal_witness :
  compareVersion "2.5" "2.5" <> EQUAL.
Proof.
  apply (compareVersion_short_never_equal "2.5" "2.5").
  vm_compute. lia.
Defined.

Lemma component_empty :
  component "" 0 = Fin 0 /\ component "" 1 = NaN.
Proof. split; reflexivity. Qed.

(** X10. Compared with the empty version string nothing is LESS or EQUAL:
    a version is GREATER than it when its first component is a number
    other than zero, and the comparison yields no value otherwise. *)
Theorem compareVersion_empty_string (w : string) :
  (compareVersion "" w = LESS \/ compareVersion "" w = None)
  /\ (compareVersion w "" = GREATER \/ compareVersion w "" = None)
  /\ (compareVersion w "" = GREATER <->
      component w 0 <> NaN /\ component w 0 <> Fin 0).
Proof.
  assert (A : compareVersion w ""
              = first_decisive (compare (component w 0) (Fin 0))
                               (compare (component w 1) NaN)
                               (compare (component w 2) (component "" 2)))
    by reflexivity.
  assert (B : compareVersion "" w
              = first_decisive (compare (Fin 0) (component w 0))
                               (compare NaN (component w 1))
                               (compare (component "" 2) (component w 2)))
    by reflexivity.
  rewrite A, B. clear A B.
  generalize (compare (component w 2) (component "" 2)).
  generalize (compare (component "" 2) (component w 2)).
  intros c3 c3'.
  assert (N1 : compare NaN (component w 1) = None)
    by (destruct (component w 1); reflexivity).
  assert (N2 : compare (component w 1) NaN = None)
    by (destruct (component w 1); reflexivity).
  rewrite N1, N2.
  destruct (component w 0) as [|m|].
  - cbn. split; [auto|]. split; [auto|].
    split; [intro Hyp; discriminate Hyp|intros [Hyp _]; congruence].
  - unfold compare, strict_eq, lt.
    destruct (N.eqb_spec m 0) as [E|E].
    + subst m. cbn. split; [auto|]. split; [auto|].
      split; [intro Hyp; discriminate Hyp|intros [_ Hyp]; congruence].
    + assert (P : (0 <? m)%N = true) by (apply N.ltb_lt; lia).
      assert (Q : (m <? 0)%N = false) by (apply N.ltb_ge; lia).
      assert (R : (0 =? m)%N = false) by (apply N.eqb_neq; lia).
      rewrite P, Q, R. cbn. split; [auto|]. split; [auto|].
      split; [intros _|reflexivity].
      split; [discriminate|]. intro Hyp. inversion Hyp. contradiction.
  - cbn. split; [auto|]. split; [auto|].
    split; [intros _; split; discriminate|reflexivity].
Qed.

Lemma delete_dash_runs_app (v s : string) :
  free_of "-" v = true ->
  delete_dash_runs false (v ++ s) = (v ++ delete_dash_runs false s)%string.
Proof.
  induction v as [|c v IH]; [reflexivity|].
  simpl. intro H. apply andb_true_iff in H. destruct H as [Hc Hv].
  apply negb_true_iff in Hc. rewrite Hc, (IH Hv). reflexivity.
Qed.

Lemma split_app (sep : ascii) (a b : string) :
  split sep (a ++ String sep b) = split sep a ++ split sep b.
Proof.
  induction a as [|c a IH].
  - simpl. rewrite Ascii.eqb_refl. reflexivity.
  - cbn [append split]. rewrite IH.
    destruct (Ascii.eqb c sep); [reflexivity|].
    destruct (split sep a) as [|h t] eqn:E;
      [exfalso; exact (split_nonempty sep a E)|]. reflexivity.
Qed.

Lemma component_extra (v x : string) (i : nat) :
  free_of "-" v = true -> i < length (split "." v) ->
  component (v ++ "." ++ x) i = component v i.
Proof.
  intros Hfree Hi. unfold component, cleanupVersion.
  rewrite (delete_dash_runs_app v _ Hfree).
  rewrite (delete_dash_runs_dash_free v Hfree).
  change ("." ++ x)%string with (String "." x).
  cbn [delete_dash_runs Ascii.eqb Bool.eqb].
  rewrite split_app, nth_error_app1 by exact Hi. reflexivity.
Qed.

(** X11. Only the first three components count: behind a version without
    ['-'] that has three components or more, a further ['.'] and any
    text change no comparison. *)
Theorem compareVersion_ignores_fourth_component (v x w : string) :
  free_of "-" v = true -> 3 <= length (split "." v) ->
  compareVersion (v ++ "." ++ x) w = compareVersion v w
  /\ compareVersion w (v ++ "." ++ x) = compareVersion w v.
Proof.
  intros Hfree Hlen. rewrite !compareVersion_first_decisive.
  rewrite !(component_extra v x) by (assumption || lia).
  split; reflexivity.
Qed.

Lemma compareVersion_ignores_fourth_component_witness :
  compareVersion "2.5.0.1" "2.5.0" = EQUAL.
Proof.
  pose proof (compareVersion_ignores_fourth_component "2.5.0" "1" "2.5.0"
                eq_refl) as H.
  destruct H as [H _]; [vm_compute; lia|].
  change ("2.5.0" ++ "." ++ "1")%string with "2.5.0.1" in H.
  rewrite H. reflexivity.
Defined.

(* ------------------------------------------------------------------ *)
(** ** Further properties of the adapter *)

Lemma get_throws (message : value) (key : string) (e : thrown) :
  get message key = inr e ->
  e = TypeError /\ (message = Undefined \/ message = Null).
Proof.
  destruct message; cbn [get]; intro H; inversion H; auto.
Qed.

Lemma compareVersion_values_throws (v1 v2 : value) (e : thrown) :
  compareVersion_values v1 v2 = inr e -> e = TypeError.
Proof.
  destruct v1, v2; cbn [compareVersion_values]; intro H; inversion H;
    reflexivity.
Qed.

Lemma neededVersion_of_throws (config : Config) (version : value)
    (e : thrown) :
  neededVersion_of config version = inr e -> e = TypeError.
Proof.
  unfold neededVersion_of.
  destruct (compareVersion_values version
              (index (emberVersionsSupported config) 0)) as [below|e1] eqn:E1.
  - destruct (is_less below); [discriminate|].
    destruct (truthy (index (emberVersionsSupported config) 1));
      [|discriminate].
    destruct (compareVersion_values version
                (index (emberVersionsSupported config) 1))
      as [above|e2] eqn:E2.
    + destruct (negb (is_less above)); discriminate.
    + intro H. inversion H. subst e2.
      exact (compareVersion_values_throws _ _ _ E2).
  - intro H. inversion H. subst e1.
    exact (compareVersion_values_throws _ _ _ E1).
Qed.

(** X12. Whatever the message and the configuration, the version listener
    either returns or throws a [TypeError]; it leaves the callback list
    alone, sends nothing, and calls [onVersionMismatch] at most once,
    and not at all when it throws. *)
Theorem version_listener_footprint (config : Config) (message : value)
    (this : adapter) :
  exists result needed,
    runs_with (version_listener config message this) this result
              (hook_calls needed)
    /\ (result = inl tt \/ (result = inr TypeError /\ needed = None)).
Proof.
  unfold version_listener, bind, lift.
  destruct (get message "name") as [name|e] eqn:En.
  2:{ exists (inr e), None. split; [apply runs_with_nothing|].
      right. destruct (get_throws _ _ _ En) as [E _]. subst e. auto. }
  destruct (get message "version") as [version|e] eqn:Ev.
  2:{ exists (inr e), None. split; [apply runs_with_nothing|].
      right. destruct (get_throws _ _ _ Ev) as [E _]. subst e. auto. }
  destruct (is_string name "version-mismatch").
  2:{ exists (inl tt), None. split; [apply runs_with_nothing|auto]. }
  destruct (neededVersion_of config version) as [[v|]|e] eqn:E.
  - exists (inl tt), (Some v). split; [apply runs_with_emit|auto].
  - exists (inl tt), None. split; [apply runs_with_nothing|auto].
  - exists (inr e), None. split; [apply runs_with_nothing|].
    right. rewrite (neededVersion_of_throws _ _ _ E). auto.
Qed.

Lemma names_mismatch_get (message : value) :
  names_mismatch message = true ->
  exists props, message = Object props
    /\ get message "name" = inl (Str "version-mismatch").
Proof.
  unfold names_mismatch.
  destruct message; cbn [get is_string]; try discriminate.
  intro H. exists props. split; [reflexivity|].
  destruct (lookup "name" props); cbn [is_string] in H; try discriminate.
  apply String.eqb_eq in H. subst s. reflexivity.
Qed.

Lemma version_listener_object (config : Config)
    (props : list (string * value)) (this : adapter) :
  version_listener config (Object props) this
  = if is_string (lookup "name" props) "version-mismatch"
    then match neededVersion_of config (lookup "version" props) with
         | inl (Some v) => onVersionMismatch v this
         | inl None => (inl tt, this)
         | inr e => (inr e, this)
         end
    else (inl tt, this).
Proof.
  unfold version_listener, bind, lift, ret. cbn [get].
  destruct (is_string (lookup "name" props) "version-mismatch");
    [|reflexivity].
  destruct (neededVersion_of config (lookup "version" props)) as [[v|]|e];
    reflexivity.
Qed.

(** X13. With strings for the bounds of the configuration (the upper one may
    be missing), the version listener throws exactly on [undefined], on
    [null], and on a message named ["version-mismatch"] whose [version]
    is not a string; on every other message it returns. *)
Theorem version_listener_throws_iff (config : Config) (message : value)
    (fromVersion : string) (this : adapter) :
  index (emberVersionsSupported config) 0 = Str fromVersion ->
  (index (emberVersionsSupported config) 1 = Undefined
   \/ exists till, index (emberVersionsSupported config) 1 = Str till) ->
  (fst (version_listener config message this) = inr TypeError <->
   message = Undefined \/ message = Null
   \/ (names_mismatch message = true
       /\ forall s, get message "version" <> inl (Str s)))
  /\ (fst (version_listener config message this) = inr TypeError
      \/ fst (version_listener config message this) = inl tt).
Proof.
  intros Hfrom Htill.
  destruct (names_mismatch message) eqn:Hname.
  - destruct (names_mismatch_get message Hname) as (props & Em & Hn).
    subst message. rewrite version_listener_object.
    unfold names_mismatch in Hname. cbn [get] in Hname. rewrite Hname.
    cbn [get].
    destruct (lookup "version" props) as [| |b|n|s|o] eqn:Ev.
    5:{ rewrite (neededVersion_of_strings config s fromVersion Hfrom Htill).
        match goal with
        | |- context [truthy_bound_action ?a ?b ?c ?d] =>
            destruct (truthy_bound_action a b c d) as [v|]
        end; cbn [fst onVersionMismatch emit]; (split; [|auto]);
          (split; [intro Hyp; discriminate Hyp|]);
          intros [Hyp|[Hyp|[_ Hyp]]]; try discriminate Hyp;
          exfalso; exact (Hyp s eq_refl). }
    all: unfold neededVersion_of; rewrite Hfrom;
      cbn [compareVersion_values fst]; (split; [|auto]);
      (split; [intros _|reflexivity]);
      right; right; (split; [reflexivity|]); intros s Hyp; discriminate Hyp.
  - rewrite (version_listener_other_name config message this Hname).
    destruct message; cbn [get fst]; (split; [|auto]);
      (split; [try (intro Hyp; discriminate Hyp); auto|]);
      try reflexivity;
      intros [Hyp|[Hyp|[Hyp _]]]; discriminate Hyp.
Qed.

Lemma version_listener_throws_iff_witness :
  fst (version_listener example_config
         (Object [("name", Str "version-mismatch"); ("version", Null)])
         fresh)
  = inr TypeError.
Proof.
  apply (proj1 (version_listener_throws_iff example_config
                  (Object [("name", Str "version-mismatch");
                           ("version", Null)])
                  "2.0.0" fresh eq_refl
                  (or_intror (ex_intro _ "3.0.0" eq_refl)))).
  right. right. split; [reflexivity|]. intros s H. discriminate H.
Defined.







Lemma is_less_iff (z : Z) : is_less (Some z) = true <-> z = (-1)%Z.
Proof.
  destruct z as [|p|[p|p|]]; cbn [is_less]; split; intro H;
    try discriminate H; reflexivity.
Qed.

Lemma compareVersion_safe_triples (a b : string) :
  is_triple a = true -> is_triple b = true ->
  safe (triple a) -> safe (triple b) ->
  compareVersion a b = Some (by_components (triple a) (triple b)).
Proof.
  intros Ha Hb Sa Sb.
  rewrite <- (ranks_triple a Ha Sa), <- (ranks_triple b Hb Sb).
  apply compareVersion_ranks; apply is_triple_well_formed; assumption.
Qed.

(** X16. The supported window is closed below and open above. With integer
    triples for the reported version and for both bounds, the listener
    makes no call of [onVersionMismatch] exactly when the version is not
    below [fromVersion] and is below [tillVersion]; in every other case
    it makes one call. *)
Theorem supported_window (config : Config) (message : value)
    (version fromVersion tillVersion : string) (this : adapter) :
  get message "name" = inl (Str "version-mismatch") ->
  get message "version" = inl (Str version) ->
  index (emberVersionsSupported config) 0 = Str fromVersion ->
  index (emberVersionsSupported config) 1 = Str tillVersion ->
  is_triple version = true -> safe (triple version) ->
  is_triple fromVersion = true -> safe (triple fromVersion) ->
  is_triple tillVersion = true -> safe (triple tillVersion) ->
  exists needed,
    runs_with (version_listener config message this) this (inl tt)
              (hook_calls needed)
    /\ (needed = None <->
        by_components (triple version) (triple fromVersion) <> (-1)%Z
        /\ by_components (triple version) (triple tillVersion) = (-1)%Z).
Proof.
  intros Hname Hversion Hfrom Htill Tv Sv Tf Sf Tt St.
  exists (truthy_bound_action fromVersion (Some tillVersion)
            (previousEmberVersionsSupported config) version).
  split.
  - apply (version_listener_on_mismatch config message version);
      [assumption|assumption|].
    rewrite (neededVersion_of_strings config version fromVersion Hfrom)
      by (right; exists tillVersion; exact Htill).
    rewrite Htill. reflexivity.
  - unfold truthy_bound_action.
    rewrite (compareVersion_safe_triples version fromVersion Tv Tf Sv Sf).
    rewrite (compareVersion_safe_triples version tillVersion Tv Tt Sv St).
    assert (Hne : String.eqb tillVersion "" = false).
    { destruct tillVersion; [discriminate Tt|reflexivity]. }
    rewrite Hne. cbn [negb andb].
    pose proof (is_less_iff (by_components (triple version)
                               (triple fromVersion))) as L1.
    pose proof (is_less_iff (by_components (triple version)
                               (triple tillVersion))) as L2.
    destruct (is_less (Some (by_components (triple version)
                               (triple fromVersion)))).
    + split; [intro H; discriminate H|].
      intros [H _]. exfalso. apply H. apply L1. reflexivity.
    + destruct (is_less (Some (by_components (triple version)
                                 (triple tillVersion)))); cbn [negb].
      * split; [intros _|reflexivity]. split.
        -- intro H. apply L1 in H. discriminate H.
        -- apply L2. reflexivity.
      * split; [intro H; discriminate H|].
        intros [_ H]. apply L2 in H. discriminate H.
Qed.

Lemma safe_2_5_0 : safe (triple "2.5.0").
Proof. vm_compute. repeat split; reflexivity. Defined.

Lemma safe_2_0_0 : safe (triple "2.0.0").
Proof. vm_compute. repeat split; reflexivity. Defined.

Lemma safe_3_0_0 : safe (triple "3.0.0").
Proof. vm_compute. repeat split; reflexivity. Defined.

Lemma supported_window_witness :
  exists needed,
    runs_with (version_listener example_config
                 (mismatch_message (Str "2.5.0")) fresh)
              fresh (inl tt) (hook_calls needed)
    /\ (needed = None <->
        by_components (triple "2.5.0") (triple "2.0.0") <> (-1)%Z
        /\ by_components (triple "2.5.0") (triple "3.0.0") = (-1)%Z).
Proof.
  exact (supported_window example_config (mismatch_message (Str "2.5.0"))
           "2.5.0" "2.0.0" "3.0.0" fresh eq_refl eq_refl eq_refl eq_refl
           eq_refl safe_2_5_0 eq_refl safe_2_0_0 eq_refl safe_3_0_0).
Defined.
